(** * MAST graph manager: the actor / trainer / evaluator coordination protocol

    A shallow embedding of [rl_coach/graph_managers/mast_graph_manager.py]
    (class [MASTGraphManager]): the three role loops [actor], [evaluate] and
    [trainer], and the trainer's [fetch_from_worker].

    Python integers are unbounded, so every counter is a [Z].  The object
    state that the methods mutate is an explicit record threaded through the
    functions.  Calls to collaborators that live outside the modelled file
    (the data store, the agent's replay memory, the base graph manager) are
    recorded, newest first, in the [events] trace of the state. *)

From Stdlib Require Import ZArith List Bool Lia Sorted.
From Stdlib Require String.
Import ListNotations.
Open Scope Z_scope.

(** ** Core types used by the graph manager *)

Inductive RunPhase := HEATUP | TRAIN | TEST | UNDEFINED.

(** The three step units of [rl_coach.core_types]; each carries [num_steps]. *)
Inductive StepMethod :=
| EnvironmentEpisodes (n : Z)
| EnvironmentSteps (n : Z)
| TrainingSteps (n : Z).

Definition num_steps (s : StepMethod) : Z :=
  match s with
  | EnvironmentEpisodes n | EnvironmentSteps n | TrainingSteps n => n
  end.

(** Modelled from the spec: [TotalStepsCounter] of [rl_coach/core_types.py],
    which is not among the modelled sources.  It is "a mapping from unit-kind
    to a running total, plus helpers to add a scalar of one kind and to
    compare against a target of the same kind". *)
Record TotalStepsCounter := mkCounter {
  environment_episodes : Z;
  environment_steps : Z;
  training_steps : Z
}.

(** [counter + steps]: the absolute target, in the unit of [steps]. *)
Definition counter_add (c : TotalStepsCounter) (s : StepMethod) : StepMethod :=
  match s with
  | EnvironmentEpisodes n => EnvironmentEpisodes (environment_episodes c + n)
  | EnvironmentSteps n => EnvironmentSteps (environment_steps c + n)
  | TrainingSteps n => TrainingSteps (training_steps c + n)
  end.

(** [counter < target]: compares the running total of the target's unit. *)
Definition counter_lt (c : TotalStepsCounter) (s : StepMethod) : bool :=
  match s with
  | EnvironmentEpisodes n => environment_episodes c <? n
  | EnvironmentSteps n => environment_steps c <? n
  | TrainingSteps n => training_steps c <? n
  end.

Definition set_environment_steps (n : Z) (c : TotalStepsCounter) :=
  mkCounter (environment_episodes c) n (training_steps c).
Definition set_environment_episodes (n : Z) (c : TotalStepsCounter) :=
  mkCounter n (environment_steps c) (training_steps c).
Definition set_training_steps (n : Z) (c : TotalStepsCounter) :=
  mkCounter (environment_episodes c) (environment_steps c) n.

(** One transition of an episode; the payload is opaque to the protocol. *)
Record Transition := mkTransition {
  state : Z; action : Z; reward : Z; next_state : Z; game_over : bool
}.

Module Episode.
Record t := mk {
  task_id : Z;
  episode_id : Z;
  policy_id : Z;
  transitions : list Transition
}.
(** [episode.length()]: the number of transitions. *)
Definition length (e : t) : Z := Z.of_nat (List.length (transitions e)).
End Episode.

(** Cumulative length of a list of episodes. *)
Definition total_length (l : list Episode.t) : Z :=
  fold_right (fun e acc => Episode.length e + acc) 0 l.

(** What the data store hands over on a successful policy load. *)
Record PolicyVersion := mkPolicy { identifier : Z; weights : Z }.

(** ** Trace of calls to collaborators *)

Inductive Event :=
| Sync                                       (* self.sync() *)
| Train                                      (* self.train() *)
| ResetInternalState                         (* self.reset_internal_state(...) *)
| Act (steps : StepMethod) (tag : Z) (taken : Z) (during : RunPhase)
      (* self.act(steps): [tag] is the agent's policy_id during the call,
         [taken] the environment steps it consumed, [during] the phase the
         manager was in *)
| AttemptLoadPolicy (at_step : Z) (ok : bool)
      (* data_store.attempt_load_policy(self), made at environment step
         [at_step] *)
| SavePolicy (id : Z)
      (* data_store.save_policy(self), with self.latest_policy_id = id *)
| OccasionallySaveCheckpoint (written : bool)
| StoreEpisode (e : Episode.t)               (* memory.store_episode(e) *)
| FlushFinished
| LogIgnored (e : Episode.t) (trainer_id : Z)
| LogFetched (total : Z) (e : Episode.t)
| LogLoaded (id : Z)
| LogPublished (id : Z).

(** ** Object state *)

Module Agent.
Record t := mk {
  policy_id : Z;
  total_steps_counter : Z;
  current_episode : Z;
  memory : list Episode.t;              (* stored episodes, oldest first *)
  current_episode_buffer_is_complete : bool;
  total_reward_in_current_episode : option Z   (* None is NaN *)
}.
End Agent.

(** The configuration read by the role loops. *)
Record Parameters := mkParameters {
  (* agent_params.algorithm.num_consecutive_playing_steps *)
  num_consecutive_playing_steps : StepMethod;
  (* agent_params.algorithm.mast_trainer_publish_policy_every_num_fetched_steps *)
  mast_trainer_publish_policy_every_num_fetched_steps : StepMethod;
  (* task_parameters.evaluate_only *)
  evaluate_only : option Z;
  (* agent_params.memory.memory_backend_params: when present, the episodes
     the subscription will deliver, in order of arrival *)
  memory_backend_params : option (list Episode.t)
}.

Record MASTGraphManager := mkGM {
  first_policy_publish : bool;
  last_publish_step : Z;
  latest_policy_id : Z;
  current_step_counter : TotalStepsCounter;
  phase : RunPhase;
  (* the attribute [memory_backend]: absent, or the episodes still to be
     delivered by the subscription *)
  memory_backend : option (list Episode.t);
  agent : Agent.t;
  params : Parameters;
  events : list Event
}.

(** [__init__]: the fields this class adds, over a fresh base manager. *)
Definition init (p : Parameters) : MASTGraphManager :=
  mkGM false 0 0 (mkCounter 0 0 0) UNDEFINED None
       (Agent.mk 0 0 0 [] false None) p [].

(** *** Field updates *)

Definition set_last_publish_step (v : Z) (g : MASTGraphManager) :=
  mkGM (first_policy_publish g) v (latest_policy_id g) (current_step_counter g)
       (phase g) (memory_backend g) (agent g) (params g) (events g).
Definition set_latest_policy_id (v : Z) (g : MASTGraphManager) :=
  mkGM (first_policy_publish g) (last_publish_step g) v (current_step_counter g)
       (phase g) (memory_backend g) (agent g) (params g) (events g).
Definition set_current_step_counter (v : TotalStepsCounter) (g : MASTGraphManager) :=
  mkGM (first_policy_publish g) (last_publish_step g) (latest_policy_id g) v
       (phase g) (memory_backend g) (agent g) (params g) (events g).
Definition set_phase (v : RunPhase) (g : MASTGraphManager) :=
  mkGM (first_policy_publish g) (last_publish_step g) (latest_policy_id g)
       (current_step_counter g) v (memory_backend g) (agent g) (params g) (events g).
Definition set_memory_backend (v : option (list Episode.t)) (g : MASTGraphManager) :=
  mkGM (first_policy_publish g) (last_publish_step g) (latest_policy_id g)
       (current_step_counter g) (phase g) v (agent g) (params g) (events g).
Definition set_agent (v : Agent.t) (g : MASTGraphManager) :=
  mkGM (first_policy_publish g) (last_publish_step g) (latest_policy_id g)
       (current_step_counter g) (phase g) (memory_backend g) v (params g) (events g).
Definition emit (e : Event) (g : MASTGraphManager) :=
  mkGM (first_policy_publish g) (last_publish_step g) (latest_policy_id g)
       (current_step_counter g) (phase g) (memory_backend g) (agent g) (params g)
       (e :: events g).

Definition set_agent_policy_id (v : Z) (a : Agent.t) :=
  Agent.mk v (Agent.total_steps_counter a) (Agent.current_episode a)
           (Agent.memory a) (Agent.current_episode_buffer_is_complete a)
           (Agent.total_reward_in_current_episode a).

(** ** Results of a call that may wait on the store *)

Inductive Outcome :=
| Returned (g : MASTGraphManager)   (* the call returned in state [g] *)
| Blocked (g : MASTGraphManager)    (* waits for ever on the subscription *)
| OutOfFuel.                        (* the model's iteration bound was hit *)

(** Modelled from the spec: [phase_context] of the base graph manager, which
    is not among the modelled sources.  The orchestrator "owns the run-phase
    flag"; [with self.phase_context(p): body] sets the phase for the body and
    puts the previous one back on exit. *)
Definition phase_context (p : RunPhase) (body : MASTGraphManager -> Outcome)
    (g : MASTGraphManager) : Outcome :=
  match body (set_phase p g) with
  | Returned g' => Returned (set_phase (phase g) g')
  | o => o
  end.

(** ** [fetch_from_worker] *)

(** Lines 199-215: the episode is on-policy and is consumed. *)
Definition accept_episode (e : Episode.t) (g : MASTGraphManager) : MASTGraphManager :=
  let a := agent g in
  (* self.get_agent().memory.store_episode(episode) *)
  let g1 := emit (StoreEpisode e) g in
  (* total_steps_counter += episode.length(); current_episode += 1;
     current_episode_buffer.is_complete = True *)
  let total := Agent.total_steps_counter a + Episode.length e in
  let a' := Agent.mk (Agent.policy_id a) total (Agent.current_episode a + 1)
                     (Agent.memory a ++ [e]) true
                     (Agent.total_reward_in_current_episode a) in
  let g2 := set_agent a' g1 in
  (* self.current_step_counter[EnvironmentSteps] = total_steps_counter *)
  let g3 := set_current_step_counter
              (set_environment_steps total (current_step_counter g2)) g2 in
  emit (LogFetched total e) g3.

(** Lines 190-197: the episode is off-policy; log and [continue]. *)
Definition ignore_episode (e : Episode.t) (g : MASTGraphManager) : MASTGraphManager :=
  emit (LogIgnored e (latest_policy_id g)) g.

(** The body of the [while] loop for one fetched episode: the new state and
    the new value of the local [steps]. *)
Definition fetch_step (e : Episode.t) (g : MASTGraphManager) (steps : Z)
    : MASTGraphManager * Z :=
  if Episode.policy_id e =? latest_policy_id g
  then (accept_episode e g, steps + Episode.length e)
  else (ignore_episode e g, steps).

(** [while steps < num_consecutive_playing_steps.num_steps]: each iteration
    takes the next episode of the subscription; with none left the call to
    [next] never returns. *)
Fixpoint fetch_loop (target : Z) (incoming : list Episode.t)
    (g : MASTGraphManager) (steps : Z) : Outcome :=
  if steps <? target then
    match incoming with
    | [] => Blocked (set_memory_backend (Some []) g)
    | e :: rest =>
        let '(g', steps') := fetch_step e g steps in
        fetch_loop target rest g' steps'
    end
  else Returned (set_memory_backend (Some incoming) g).

Definition fetch_from_worker (num_consecutive_playing_steps : StepMethod)
    (g : MASTGraphManager) : Outcome :=
  match memory_backend g with
  | Some incoming =>
      phase_context TRAIN
        (fun g0 => fetch_loop (num_steps num_consecutive_playing_steps) incoming g0 0) g
  | None => Returned g
  end.

(** ** Collaborators of the role loops *)

(** The data store as one role sees it: what each query answers when it is
    made in loop iteration [i] of that role. *)
Record RedisDataStore := mkStore {
  (* data_store.end_of_policies() *)
  end_of_policies : nat -> bool;
  (* data_store.attempt_load_policy(self): the newer policy version that was
     loaded, if there was one; the call itself returns only whether *)
  attempt_load_policy : nat -> option PolicyVersion
}.

(** What the base graph manager and the environment decide on their own. *)
Record Collaborators := mkCollaborators {
  (* environment steps consumed by the call of self.act in iteration [i] *)
  steps_taken : nat -> positive;
  (* whether occasionally_save_checkpoint finds a checkpoint due *)
  checkpoint_due : nat -> bool;
  (* self.should_stop() *)
  should_stop : bool
}.

(** Modelled from the spec: [sync] of the base graph manager "refreshes the
    local policy from SharedStore"; the weights are opaque here. *)
Definition sync (g : MASTGraphManager) : MASTGraphManager := emit Sync g.

(** Modelled from the spec: [reset_internal_state] of the base graph manager
    "resets environment state", which is opaque here. *)
Definition reset_internal_state (g : MASTGraphManager) : MASTGraphManager :=
  emit ResetInternalState g.

(** Modelled from the spec: [act] of the base graph manager.  "The loop
    always advances by at least one environment step per iteration", and "the
    number of environment steps actually consumed may exceed one"; acting for
    whole episodes also counts the episodes. *)
Definition act (steps : StepMethod) (taken : positive) (g : MASTGraphManager)
    : MASTGraphManager :=
  let c := current_step_counter g in
  let c1 := set_environment_steps (environment_steps c + Z.pos taken) c in
  let c2 := match steps with
            | EnvironmentEpisodes n =>
                set_environment_episodes (environment_episodes c1 + n) c1
            | _ => c1
            end in
  emit (Act steps (Agent.policy_id (agent g)) (Z.pos taken) (phase g))
       (set_current_step_counter c2 g).

(** Modelled from the spec: [train] of the base graph manager "performs one
    training update" and counts it as one training step. *)
Definition train (g : MASTGraphManager) : MASTGraphManager :=
  let c := current_step_counter g in
  emit Train (set_current_step_counter (set_training_steps (training_steps c + 1) c) g).

(** Modelled from the spec: [occasionally_save_checkpoint] of the base graph
    manager writes a checkpoint when one is due by its own (wall-clock)
    cadence. *)
Definition occasionally_save_checkpoint (due : bool) (g : MASTGraphManager)
    : MASTGraphManager :=
  emit (OccasionallySaveCheckpoint due) g.

(** Modelled from the spec: [setup_memory_backend] of the base graph manager
    creates the attribute only when a backend is configured. *)
Definition setup_memory_backend (g : MASTGraphManager) : MASTGraphManager :=
  match memory_backend_params (params g) with
  | Some channel => set_memory_backend (Some channel) g
  | None => g
  end.

(** ** Loops *)

Inductive Step :=
| Continue (g : MASTGraphManager)   (* go on with the next iteration *)
| Stop (o : Outcome).               (* break, or never come back *)

(** [while cond: body], the iterations numbered from [i]. *)
Fixpoint while (cond : MASTGraphManager -> bool)
    (body : nat -> MASTGraphManager -> Step)
    (fuel : nat) (i : nat) (g : MASTGraphManager) {struct fuel} : Outcome :=
  if cond g then
    match fuel with
    | O => OutOfFuel
    | S fuel' =>
        match body i g with
        | Continue g' => while cond body fuel' (S i) g'
        | Stop o => o
        end
    end
  else Returned g.

(** ** [actor] and [evaluate] *)

(** Lines 71-77 and 104-109: on a successful load the local counter goes up
    by one and the agent is tagged with it. *)
Definition refresh_policy (data_store : RedisDataStore) (i : nat)
    (g : MASTGraphManager) : MASTGraphManager :=
  let at_step := environment_steps (current_step_counter g) in
  match attempt_load_policy data_store i with
  | Some _ =>
      let g1 := emit (AttemptLoadPolicy at_step true) g in
      let g2 := set_latest_policy_id (latest_policy_id g1 + 1) g1 in
      let g3 := set_agent (set_agent_policy_id (latest_policy_id g2) (agent g2)) g2 in
      emit (LogLoaded (latest_policy_id g3)) g3
  | None => emit (AttemptLoadPolicy at_step false) g
  end.

(** Lines 68-79: one iteration of the actor's loop. *)
Definition actor_body (data_store : RedisDataStore) (co : Collaborators)
    (i : nat) (g : MASTGraphManager) : Step :=
  if end_of_policies data_store i then Stop (Returned g)
  else
    let g1 := if environment_steps (current_step_counter g) mod 200 =? 0
              then refresh_policy data_store i g else g in
    Continue (act (EnvironmentSteps 1) (steps_taken co i) g1).

Definition actor (total_steps_to_act : Z) (data_store : RedisDataStore)
    (co : Collaborators) (g : MASTGraphManager) : Outcome :=
  let g := sync g in
  if 0 <? total_steps_to_act then
    phase_context TRAIN
      (fun g0 =>
         let g1 := reset_internal_state g0 in
         let count_end :=
           counter_add (current_step_counter g1) (EnvironmentSteps total_steps_to_act) in
         while (fun s => counter_lt (current_step_counter s) count_end)
               (actor_body data_store co) (Z.to_nat total_steps_to_act) 0 g1)
      g
  else Returned g.

(** Lines 113-118: the episode of one evaluator iteration, with the phase
    assignments around it. *)
Definition evaluation_episode (taken : positive) (g : MASTGraphManager)
    : MASTGraphManager :=
  let g1 := match evaluate_only (params g) with
            | Some _ => set_phase TEST g
            | None => g
            end in
  let g2 := sync (act (EnvironmentEpisodes 1) taken g1) in
  match evaluate_only (params g2) with
  | Some _ => set_phase TRAIN g2
  | None => g2
  end.

(** Lines 101-118: one iteration of the evaluator's loop. *)
Definition evaluate_body (data_store : RedisDataStore) (co : Collaborators)
    (i : nat) (g : MASTGraphManager) : Step :=
  if end_of_policies data_store i then Stop (Returned g)
  else Continue (evaluation_episode (steps_taken co i) (refresh_policy data_store i g)).

Definition evaluate_loop (total_steps_to_act : Z) (data_store : RedisDataStore)
    (co : Collaborators) (g : MASTGraphManager) : Outcome :=
  let g := sync g in
  if 0 <? total_steps_to_act then
    phase_context TEST
      (fun g0 =>
         let g1 := reset_internal_state g0 in
         let count_end :=
           counter_add (current_step_counter g1) (EnvironmentSteps total_steps_to_act) in
         while (fun s => counter_lt (current_step_counter s) count_end)
               (evaluate_body data_store co) (Z.to_nat total_steps_to_act) 0 g1)
      g
  else Returned g.

(** [evaluate]: the state it leaves and the boolean it returns. *)
Definition evaluate (total_steps_to_act : Z) (data_store : RedisDataStore)
    (co : Collaborators) (g : MASTGraphManager) : Outcome * bool :=
  match evaluate_loop total_steps_to_act data_store co g with
  | Returned g' =>
      if should_stop co then (Returned (emit FlushFinished g'), true)
      else (Returned g', false)
  | o => (o, false)
  end.

(** ** [trainer] *)

Definition trainer_specific_logging_updates (g : MASTGraphManager) : MASTGraphManager :=
  let a := agent g in
  set_agent (Agent.mk (Agent.policy_id a) (Agent.total_steps_counter a)
                      (Agent.current_episode a) (Agent.memory a)
                      (Agent.current_episode_buffer_is_complete a) None) g.

(** Line 157: the test that guards the publish phase. *)
Definition publish_due (g : MASTGraphManager) : bool :=
  num_steps (mast_trainer_publish_policy_every_num_fetched_steps (params g))
  <=? Agent.total_steps_counter (agent g) - last_publish_step g.

(** Lines 160-172: the publish phase. *)
Definition publish (due : bool) (g : MASTGraphManager) : MASTGraphManager :=
  let g1 := set_latest_policy_id (latest_policy_id g + 1) g in
  let g2 := sync g1 in
  let g3 := emit (SavePolicy (latest_policy_id g2)) g2 in
  let g4 := occasionally_save_checkpoint due g3 in
  let g5 := emit (LogPublished (latest_policy_id g4)) g4 in
  set_last_publish_step (environment_steps (current_step_counter g5)) g5.

(** Lines 155-172: one iteration of the trainer's loop. *)
Definition trainer_body (co : Collaborators) (i : nat) (g : MASTGraphManager) : Step :=
  match fetch_from_worker (num_consecutive_playing_steps (params g)) g with
  | Returned g1 =>
      let g2 := train g1 in
      if publish_due g2 then Continue (publish (checkpoint_due co i) g2)
      else Continue g2
  | o => Stop o
  end.

Definition trainer (total_steps_to_train : Z) (data_store : RedisDataStore)
    (co : Collaborators) (g : MASTGraphManager) : Outcome :=
  let g := setup_memory_backend (sync g) in
  if 0 <? total_steps_to_train then
    phase_context TRAIN
      (fun g0 =>
         let g1 := trainer_specific_logging_updates (reset_internal_state g0) in
         let count_end :=
           counter_add (current_step_counter g1) (TrainingSteps total_steps_to_train) in
         while (fun s => counter_lt (current_step_counter s) count_end)
               (trainer_body co) (Z.to_nat total_steps_to_train) 0 g1)
      g
  else Returned g.

(** ** Reading the trace *)

(** Number of [save_policy] calls in a trace. *)
Fixpoint saves (l : list Event) : Z :=
  match l with
  | [] => 0
  | SavePolicy _ :: l' => 1 + saves l'
  | _ :: l' => saves l'
  end.

(** Number of successful [attempt_load_policy] calls in a trace. *)
Fixpoint loads (l : list Event) : Z :=
  match l with
  | [] => 0
  | AttemptLoadPolicy _ true :: l' => 1 + loads l'
  | _ :: l' => loads l'
  end.

(** Number of [train] calls in a trace. *)
Fixpoint trainings (l : list Event) : Z :=
  match l with
  | [] => 0
  | Train :: l' => 1 + trainings l'
  | _ :: l' => trainings l'
  end.

(** Number of [act] calls in a trace. *)
Fixpoint acts (l : list Event) : Z :=
  match l with
  | [] => 0
  | Act _ _ _ _ :: l' => 1 + acts l'
  | _ :: l' => acts l'
  end.

(** Number of checkpoints written in a trace. *)
Fixpoint checkpoints (l : list Event) : Z :=
  match l with
  | [] => 0
  | OccasionallySaveCheckpoint true :: l' => 1 + checkpoints l'
  | _ :: l' => checkpoints l'
  end.

(** The episodes stored after the most recent [save_policy], newest first. *)
Fixpoint stored_since_publish (l : list Event) : list Episode.t :=
  match l with
  | [] => []
  | SavePolicy _ :: _ => []
  | StoreEpisode e :: l' => e :: stored_since_publish l'
  | _ :: l' => stored_since_publish l'
  end.

(** Every [save_policy] of the trace comes after at least [threshold] stored
    environment steps since the one before it, all of them from episodes
    tagged with the policy that was current before the publish. *)
Fixpoint publishes_fed (threshold : Z) (l : list Event) : Prop :=
  match l with
  | [] => True
  | SavePolicy id :: l' =>
      threshold <= total_length (stored_since_publish l') /\
      Forall (fun e => Episode.policy_id e = id - 1) (stored_since_publish l') /\
      publishes_fed threshold l'
  | _ :: l' => publishes_fed threshold l'
  end.

(** The environment steps at which a refresh was attempted, newest first. *)
Fixpoint attempt_steps (l : list Event) : list Z :=
  match l with
  | [] => []
  | AttemptLoadPolicy s _ :: l' => s :: attempt_steps l'
  | _ :: l' => attempt_steps l'
  end.

(** A refresh was attempted at environment step [s]. *)
Definition attempted_at (s : Z) (l : list Event) : Prop := In s (attempt_steps l).

(** What a stretch of the trainer's fetch phase changes between [g] and
    [g'], given the episodes [new] it stored (newest first): the counters of
    fetched steps grow by their length, the trace gains no call other than
    the stores, and nothing else that the publish phase reads is touched. *)
Definition fetched (new : list Episode.t) (g g' : MASTGraphManager) : Prop :=
  latest_policy_id g' = latest_policy_id g /\
  last_publish_step g' = last_publish_step g /\
  params g' = params g /\
  training_steps (current_step_counter g') = training_steps (current_step_counter g) /\
  saves (events g') = saves (events g) /\
  trainings (events g') = trainings (events g) /\
  checkpoints (events g') = checkpoints (events g) /\
  (forall t, publishes_fed t (events g) -> publishes_fed t (events g')) /\
  stored_since_publish (events g') = new ++ stored_since_publish (events g) /\
  Forall (fun e => Episode.policy_id e = latest_policy_id g) new /\
  Agent.total_steps_counter (agent g')
    = Agent.total_steps_counter (agent g) + total_length new /\
  (environment_steps (current_step_counter g) = Agent.total_steps_counter (agent g) ->
   environment_steps (current_step_counter g') = Agent.total_steps_counter (agent g')).

(** The trainer's counters and its trace agree: the environment-step counter
    is the agent's total, the steps counted since the last publish are those
    of the episodes stored since, all fetched under the current policy, and
    every publish so far was fed. *)
Definition trainer_consistent (g : MASTGraphManager) : Prop :=
  environment_steps (current_step_counter g) = Agent.total_steps_counter (agent g) /\
  Agent.total_steps_counter (agent g) - last_publish_step g
    = total_length (stored_since_publish (events g)) /\
  Forall (fun e => Episode.policy_id e = latest_policy_id g)
         (stored_since_publish (events g)) /\
  publishes_fed
    (num_steps (mast_trainer_publish_policy_every_num_fetched_steps (params g)))
    (events g).

(** What holds of the state a role call ends in, whether it returned or is
    waiting on the subscription. *)
Definition ends_with (P : MASTGraphManager -> Prop) (o : Outcome) : Prop :=
  match o with
  | Returned g | Blocked g => P g
  | OutOfFuel => True
  end.

(** An episode of [n] transitions, for the worked examples. *)
Definition sample_episode (task eid pid : Z) (n : nat) : Episode.t :=
  Episode.mk task eid pid (repeat (mkTransition 0 0 0 0 false) n).

(** A trainer in mid-run, for the worked examples: policy [pid] is current,
    [total] steps were fetched so far, the last publish was at [published]. *)
Definition sample_trainer (pid total published : Z) (target threshold : Z)
    (incoming : option (list Episode.t)) : MASTGraphManager :=
  mkGM false published pid (mkCounter 0 total 0) TRAIN incoming
       (Agent.mk pid total 0 [] false None)
       (mkParameters (EnvironmentSteps target) (EnvironmentSteps threshold) None incoming)
       [].

(** ** Further readings of the state and of the trace *)

(** The identifiers passed to [save_policy], newest first. *)
Fixpoint saved_ids (l : list Event) : list Z :=
  match l with
  | [] => []
  | SavePolicy id :: l' => id :: saved_ids l'
  | _ :: l' => saved_ids l'
  end.

(** [base + k; ...; base + 2; base + 1]. *)
Fixpoint countdown (base : Z) (k : nat) : list Z :=
  match k with
  | O => []
  | S k' => base + Z.of_nat (S k') :: countdown base k'
  end.

(** The phases in which [act] was called, newest first. *)
Fixpoint act_phases (l : list Event) : list RunPhase :=
  match l with
  | [] => []
  | Act _ _ _ p :: l' => p :: act_phases l'
  | _ :: l' => act_phases l'
  end.

(** The policy tags under which [act] was called, newest first. *)
Fixpoint act_tags (l : list Event) : list Z :=
  match l with
  | [] => []
  | Act _ t _ _ :: l' => t :: act_tags l'
  | _ :: l' => act_tags l'
  end.

(** Number of [flush_finished] calls in a trace. *)
Fixpoint flushes (l : list Event) : Z :=
  match l with
  | [] => 0
  | FlushFinished :: l' => 1 + flushes l'
  | _ :: l' => flushes l'
  end.

(** Number of [attempt_load_policy] calls in a trace, successful or not. *)
Definition attempts (l : list Event) : Z := Z.of_nat (length (attempt_steps l)).

(** The events that the fetch loop itself emits. *)
Definition fetch_event (e : Event) : Prop :=
  match e with
  | StoreEpisode _ | LogIgnored _ _ | LogFetched _ _ => True
  | _ => False
  end.

(** The episodes of [l] tagged with policy [pid], in their order. *)
Definition on_policy_only (pid : Z) (l : list Episode.t) : list Episode.t :=
  filter (fun e => Episode.policy_id e =? pid) l.

(** The fetch loop took the first [n] episodes of [incoming] off the
    subscription and stored those tagged [pid], in their order of arrival. *)
Definition consumed (pid : Z) (incoming : list Episode.t) (n : nat)
    (g g' : MASTGraphManager) : Prop :=
  let kept := on_policy_only pid (firstn n incoming) in
  memory_backend g' = Some (skipn n incoming) /\
  Agent.memory (agent g') = Agent.memory (agent g) ++ kept /\
  Agent.total_steps_counter (agent g')
    = Agent.total_steps_counter (agent g) + total_length kept /\
  Agent.current_episode (agent g')
    = Agent.current_episode (agent g) + Z.of_nat (length kept) /\
  latest_policy_id g' = latest_policy_id g /\
  (kept = [] ->
     agent g' = agent g /\ current_step_counter g' = current_step_counter g) /\
  (kept <> [] ->
     environment_steps (current_step_counter g')
       = Agent.total_steps_counter (agent g') /\
     Agent.current_episode_buffer_is_complete (agent g') = true).

(** ** The blue agent of the match environment

    [env_framework/agent/cetc28/cetc28_blue.py], class [BlueAgent].  The
    agent hands out its own list of instructions, so the lists live in an
    explicit store and the agent holds the address of its list. *)

Module BlueAgent.
Import String.

Definition Instruction := Z.

(** The list objects allocated so far; an address is a position. *)
Definition Heap := list (list Instruction).

Definition lookup (addr : nat) (h : Heap) : option (list Instruction) :=
  nth_error h addr.

Fixpoint update (addr : nat) (v : list Instruction) (h : Heap) : Heap :=
  match h, addr with
  | [], _ => []
  | _ :: rest, O => v :: rest
  | x :: rest, S addr' => x :: update addr' v rest
  end.

(** [[]]: a new, empty list object. *)
Definition alloc (h : Heap) : Heap * nat := (h ++ [[]], List.length h).

(** [l.append(x)] on the list at [addr], as a holder of the list may do. *)
Definition append (addr : nat) (x : Instruction) (h : Heap) : Heap :=
  match lookup addr h with
  | Some l => update addr (l ++ [x]) h
  | None => h
  end.

Record t := mk {
  name : string;
  side : Z;
  forms_own : list (Z * Z);
  units_oppo : list (Z * Z);
  threats : list (Z * Z);
  instructions : nat        (* the address of the list [self.instructions] *)
}.

(** [config[key]] on a dictionary with string keys. *)
Fixpoint get (key : string) (config : list (string * Z)) : option Z :=
  match config with
  | [] => None
  | (k, v) :: rest => if String.eqb k key then Some v else get key rest
  end.

Inductive Result (A : Type) :=
| Ok (a : A)
| KeyError (key : string).
Arguments Ok {A} a.
Arguments KeyError {A} key.

(** The key read by the constructor. *)
Definition side_key : string := "side"%string.

(** [_init]: three new dictionaries and a new list. *)
Definition _init (a : t) (h : Heap) : Heap * t :=
  let '(h', addr) := alloc h in
  (h', mk (name a) (side a) [] [] [] addr).

(** [__init__]: [config['side']] is looked up first; the base class, which
    is not among the sources, is taken to record the name and the side. *)
Definition __init__ (name : string) (config : list (string * Z)) (h : Heap)
    : Result (Heap * t) :=
  match get "side"%string config with
  | Some s => Ok (_init (mk name s [] [] [] 0) h)
  | None => KeyError "side"%string
  end.

Definition reset (a : t) (h : Heap) : Heap * t := _init a h.

(** [step]: clears the agent's list in place and returns that very list. *)
Definition step (sim_time obs_blue : Z) (a : t) (h : Heap) : Heap * nat :=
  (update (instructions a) [] h, instructions a).

(** A holder of the list at [addr] appends the commands [cmds] to it. *)
Definition extend (addr : nat) (cmds : list Instruction) (h : Heap) : Heap :=
  fold_left (fun h' c => append addr c h') cmds h.

End BlueAgent.

(** * Properties *)

(** ** Cumulative lengths *)

Lemma total_length_app l1 l2 :
  total_length (l1 ++ l2) = total_length l1 + total_length l2.
Proof. induction l1 as [|e l1 IH]; simpl; [reflexivity | rewrite IH; lia]. Qed.

Lemma total_length_positive l :
  Forall (fun e => 0 < Episode.length e) l -> Z.of_nat (length l) <= total_length l.
Proof.
  induction 1 as [|e l He _ IH]; simpl length; simpl total_length; lia.
Qed.

(** ** The staleness check (one fetched episode) *)

(** C1.  An episode fetched by the trainer is consumed exactly when its
    [policy_id] equals the trainer's [latest_policy_id].  When it does, the
    episode is appended to the agent's memory, its length is added to the
    local [steps] that is compared with the fetch target, and the agent's
    [total_steps_counter] advances by its length.  When it does not, the
    episode is only logged: memory, [steps] and every counter are unchanged
    and the loop goes on with the next episode.  In particular an episode
    tagged [k] is consumed when [latest_policy_id = k] and dropped when
    [latest_policy_id > k]. *)
Theorem staleness_check :
  forall (e : Episode.t) (g : MASTGraphManager) (steps target : Z)
         (rest : list Episode.t),
    let g' := fst (fetch_step e g steps) in
    let steps' := snd (fetch_step e g steps) in
    (Episode.policy_id e = latest_policy_id g <->
       Agent.memory (agent g') = Agent.memory (agent g) ++ [e]) /\
    (Episode.policy_id e = latest_policy_id g ->
       steps' = steps + Episode.length e /\
       Agent.total_steps_counter (agent g')
         = Agent.total_steps_counter (agent g) + Episode.length e /\
       environment_steps (current_step_counter g')
         = Agent.total_steps_counter (agent g')) /\
    (Episode.policy_id e <> latest_policy_id g ->
       steps' = steps /\
       agent g' = agent g /\
       current_step_counter g' = current_step_counter g /\
       events g' = LogIgnored e (latest_policy_id g) :: events g) /\
    (latest_policy_id g > Episode.policy_id e ->
       Agent.memory (agent g') = Agent.memory (agent g) /\ steps' = steps) /\
    latest_policy_id g' = latest_policy_id g /\
    (steps < target ->
       fetch_loop target (e :: rest) g steps = fetch_loop target rest g' steps').
Proof.
  intros e g steps target rest g' steps'. subst g' steps'.
  unfold fetch_step.
  destruct (Z.eqb_spec (Episode.policy_id e) (latest_policy_id g)) as [Heq | Hne];
    cbn [fst snd].
  - repeat split; try reflexivity; try tauto; try lia.
    intros Hlt. cbn [fetch_loop]. apply Z.ltb_lt in Hlt. rewrite Hlt.
    unfold fetch_step. rewrite <- Heq, Z.eqb_refl. reflexivity.
  - repeat split; try reflexivity; try tauto.
    + intros Hmem. exfalso. simpl in Hmem.
      apply (f_equal (@length _)) in Hmem. rewrite length_app in Hmem.
      simpl in Hmem. lia.
    + intros Hlt. cbn [fetch_loop]. apply Z.ltb_lt in Hlt. rewrite Hlt.
      unfold fetch_step. apply Z.eqb_neq in Hne. rewrite Hne. reflexivity.
Qed.

Lemma staleness_check_witness :
  let g := sample_trainer 3 0 0 200 1000 (Some []) in
  let fresh := sample_episode 1 7 3 80 in
  let stale := sample_episode 2 9 2 150 in
  snd (fetch_step fresh g 0) = 80 /\
  Agent.memory (agent (fst (fetch_step stale g 0))) = [] /\
  snd (fetch_step stale g 0) = 0.
Proof.
  intros g fresh stale.
  pose proof (staleness_check fresh g 0 200 []) as Hf.
  pose proof (staleness_check stale g 0 200 []) as Hs.
  cbv zeta in Hf, Hs.
  destruct Hf as (_ & Hacc & _).
  destruct Hs as (_ & _ & _ & Hold & _).
  split.
  - destruct (Hacc eq_refl) as (H & _). exact H.
  - apply Hold. vm_compute. reflexivity.
Defined.

(** ** The fetch phase *)

(** The loop on on-policy episodes: it stops on the shortest prefix whose
    cumulative length brings [steps] to the target. *)
Lemma fetch_loop_on_policy target :
  forall (incoming : list Episode.t) (g : MASTGraphManager) (steps : Z),
    Forall (fun e => Episode.policy_id e = latest_policy_id g) incoming ->
    target <= steps + total_length incoming ->
    exists (n : nat) (g' : MASTGraphManager),
      (n <= length incoming)%nat /\
      fetch_loop target incoming g steps = Returned g' /\
      target <= steps + total_length (firstn n incoming) /\
      (forall m, (m < n)%nat -> steps + total_length (firstn m incoming) < target) /\
      Agent.total_steps_counter (agent g')
        = Agent.total_steps_counter (agent g) + total_length (firstn n incoming) /\
      Agent.memory (agent g') = Agent.memory (agent g) ++ firstn n incoming /\
      memory_backend g' = Some (skipn n incoming) /\
      latest_policy_id g' = latest_policy_id g /\
      last_publish_step g' = last_publish_step g /\
      phase g' = phase g /\
      params g' = params g.
Proof.
  induction incoming as [|e rest IH]; intros g steps Hpol Henough.
  - simpl in Henough. exists 0%nat, (set_memory_backend (Some []) g).
    cbn [fetch_loop]. replace (steps <? target) with false
      by (symmetry; apply Z.ltb_ge; lia).
    simpl. rewrite app_nil_r. repeat split; try lia; try reflexivity.
  - destruct (Z.ltb_spec steps target) as [Hlt | Hge].
    + inversion Hpol as [|? ? He Hrest]; subst.
      specialize (IH (accept_episode e g) (steps + Episode.length e)).
      destruct IH as (n & g' & Hn & Hrun & Hreach & Hfirst & Htot & Hmem & Hbk
                        & Hid & Hpub & Hph & Hpar).
      * exact Hrest.
      * simpl in Henough. lia.
      * exists (S n), g'. cbn [fetch_loop].
        replace (steps <? target) with true by (symmetry; apply Z.ltb_lt; lia).
        unfold fetch_step. rewrite He, Z.eqb_refl.
        repeat split.
        -- simpl. lia.
        -- exact Hrun.
        -- simpl. lia.
        -- intros [|m] Hm; simpl; [lia|].
           specialize (Hfirst m ltac:(lia)). lia.
        -- rewrite Htot. simpl. lia.
        -- rewrite Hmem. simpl. now rewrite <- app_assoc.
        -- exact Hbk.
        -- exact Hid.
        -- exact Hpub.
        -- exact Hph.
        -- exact Hpar.
    + exists 0%nat, (set_memory_backend (Some (e :: rest)) g).
      cbn [fetch_loop].
      replace (steps <? target) with false by (symmetry; apply Z.ltb_ge; lia).
      simpl. rewrite app_nil_r. repeat split; try lia; try reflexivity.
Qed.

(** C2.  On a subscription that delivers on-policy episodes of positive
    length, [fetch_from_worker] returns, having consumed exactly the shortest
    prefix whose cumulative length reaches or exceeds the target: the prefix
    reaches the target and no shorter one does.  The agent's
    [total_steps_counter] has grown by the cumulative length of that prefix,
    whatever the target was, and the episodes consumed are those of the
    prefix. *)
Theorem fetch_target_convergence :
  forall (target : StepMethod) (g : MASTGraphManager) (incoming : list Episode.t),
    memory_backend g = Some incoming ->
    Forall (fun e => Episode.policy_id e = latest_policy_id g) incoming ->
    Forall (fun e => 0 < Episode.length e) incoming ->
    num_steps target <= Z.of_nat (length incoming) ->
    exists (n : nat) (g' : MASTGraphManager),
      (n <= length incoming)%nat /\
      fetch_from_worker target g = Returned g' /\
      num_steps target <= total_length (firstn n incoming) /\
      (forall m, (m < n)%nat -> total_length (firstn m incoming) < num_steps target) /\
      Agent.total_steps_counter (agent g')
        = Agent.total_steps_counter (agent g) + total_length (firstn n incoming) /\
      Agent.memory (agent g') = Agent.memory (agent g) ++ firstn n incoming /\
      memory_backend g' = Some (skipn n incoming).
Proof.
  intros target g incoming Hbk Hpol Hpos Hlong.
  destruct (fetch_loop_on_policy (num_steps target) incoming (set_phase TRAIN g) 0)
    as (n & g' & Hn & Hrun & Hreach & Hfirst & Htot & Hmem & Hrest & _).
  - exact Hpol.
  - pose proof (total_length_positive incoming Hpos). lia.
  - exists n, (set_phase (phase g) g').
    unfold fetch_from_worker, phase_context. rewrite Hbk, Hrun.
    split; [exact Hn|]. split; [reflexivity|]. split; [lia|].
    split; [intros m Hm; specialize (Hfirst m Hm); lia|].
    split; [exact Htot|]. split; [exact Hmem | exact Hrest].
Qed.

Lemma fetch_target_convergence_witness :
  let incoming := [sample_episode 1 1 3 80; sample_episode 1 2 3 140;
                   sample_episode 1 3 3 1] in
  let g := sample_trainer 3 500 500 3 1000 (Some incoming) in
  exists (n : nat) (g' : MASTGraphManager),
    fetch_from_worker (EnvironmentSteps 3) g = Returned g' /\
    Agent.total_steps_counter (agent g')
      = 500 + total_length (firstn n incoming).
Proof.
  intros incoming g.
  destruct (fetch_target_convergence (EnvironmentSteps 3) g incoming)
    as (n & g' & _ & Hrun & _ & _ & Htot & _).
  - reflexivity.
  - repeat constructor.
  - repeat constructor.
  - simpl. lia.
  - exists n, g'. split; [exact Hrun | exact Htot].
Defined.

(** The scenario of the specification: policy 3 is current and the target is
    200; the episodes (3, 80), (2, 150), (3, 140) arrive.  The second is
    dropped and the total grows by 220. *)
Example fetch_scenario :
  let incoming := [sample_episode 1 1 3 80; sample_episode 2 1 2 150;
                   sample_episode 1 2 3 140] in
  match fetch_from_worker (EnvironmentSteps 200)
          (sample_trainer 3 0 0 200 1000 (Some incoming)) with
  | Returned g' =>
      Agent.total_steps_counter (agent g') = 220 /\
      List.length (Agent.memory (agent g')) = 2%nat /\
      memory_backend g' = Some []
  | _ => False
  end.
Proof. vm_compute. repeat split. Qed.

(** ** No memory backend *)

(** C10.  Without a [memory_backend] attribute [fetch_from_worker] returns at
    once in the state it was called in: nothing is fetched or stored and no
    counter moves.  The trainer's iteration then goes on to its train phase
    with the experience it already had. *)
Theorem fetch_without_memory_backend :
  forall (target : StepMethod) (co : Collaborators) (i : nat) (g : MASTGraphManager),
    memory_backend g = None ->
    fetch_from_worker target g = Returned g /\
    exists g', trainer_body co i g = Continue g' /\
               Agent.memory (agent g') = Agent.memory (agent g) /\
               Agent.total_steps_counter (agent g')
                 = Agent.total_steps_counter (agent g) /\
               trainings (events g') = 1 + trainings (events g).
Proof.
  intros target co i g Hnone.
  split.
  - unfold fetch_from_worker. now rewrite Hnone.
  - unfold trainer_body, fetch_from_worker. rewrite Hnone.
    destruct (publish_due (train g)); eexists; split; try reflexivity;
      repeat split.
Qed.

Lemma fetch_without_memory_backend_witness :
  fetch_from_worker (EnvironmentSteps 200) (sample_trainer 3 0 0 200 1000 None)
  = Returned (sample_trainer 3 0 0 200 1000 None).
Proof.
  apply (fetch_without_memory_backend (EnvironmentSteps 200)
           (mkCollaborators (fun _ => 1%positive) (fun _ => false) false) 0%nat).
  reflexivity.
Defined.

(** ** What the fetch phase leaves untouched *)

Lemma fetched_refl g : fetched [] g g.
Proof. unfold fetched; repeat split; auto; simpl; lia. Qed.

Lemma fetched_trans new1 new2 g g1 g2 :
  fetched new1 g g1 -> fetched new2 g1 g2 -> fetched (new2 ++ new1) g g2.
Proof.
  intros (A1 & A2 & A3 & A4 & A5 & A6 & A7 & A8 & A9 & A10 & A11 & A12)
         (B1 & B2 & B3 & B4 & B5 & B6 & B7 & B8 & B9 & B10 & B11 & B12).
  unfold fetched. repeat split; try congruence; auto.
  - rewrite B9, A9. now rewrite app_assoc.
  - apply Forall_app. split; [|exact A10].
    rewrite <- A1. exact B10.
  - rewrite B11, A11, total_length_app. lia.
Qed.

Lemma fetched_accept e g :
  Episode.policy_id e = latest_policy_id g -> fetched [e] g (accept_episode e g).
Proof.
  intros He. unfold fetched. repeat split; auto; simpl; lia.
Qed.

Lemma fetched_ignore e g : fetched [] g (ignore_episode e g).
Proof. unfold fetched; repeat split; auto; simpl; lia. Qed.

Lemma fetched_set_memory_backend v g : fetched [] g (set_memory_backend v g).
Proof. unfold fetched; repeat split; auto; simpl; lia. Qed.

Lemma fetched_set_phase p g : fetched [] g (set_phase p g).
Proof. unfold fetched; repeat split; auto; simpl; lia. Qed.

Lemma fetch_loop_fetched target :
  forall (incoming : list Episode.t) (g : MASTGraphManager) (steps : Z),
    match fetch_loop target incoming g steps with
    | Returned g' =>
        exists new, fetched new g g' /\ target <= steps + total_length new /\
                    phase g' = phase g
    | Blocked g' =>
        exists new, fetched new g g' /\ steps + total_length new < target /\
                    memory_backend g' = Some []
    | OutOfFuel => False
    end.
Proof.
  induction incoming as [|e rest IH]; intros g steps; cbn [fetch_loop];
    destruct (Z.ltb_spec steps target) as [Hlt | Hge].
  - exists []. split; [apply fetched_set_memory_backend|]. simpl. split; [lia|reflexivity].
  - exists []. split; [apply fetched_set_memory_backend|]. simpl. split; [lia|reflexivity].
  - unfold fetch_step.
    destruct (Z.eqb_spec (Episode.policy_id e) (latest_policy_id g)) as [He | He].
    + specialize (IH (accept_episode e g) (steps + Episode.length e)).
      destruct (fetch_loop target rest (accept_episode e g) (steps + Episode.length e))
        as [g' | g' |]; [| |exact IH];
        destruct IH as (new & Hf & Hsum & Hx); exists (new ++ [e]);
        (split; [eapply fetched_trans; [apply fetched_accept; exact He | exact Hf]|]);
        rewrite total_length_app; simpl; (split; [lia | exact Hx]).
    + specialize (IH (ignore_episode e g) steps).
      destruct (fetch_loop target rest (ignore_episode e g) steps)
        as [g' | g' |]; [| |exact IH];
        destruct IH as (new & Hf & Hsum & Hx); exists new;
        (split; [rewrite <- (app_nil_r new);
                 eapply fetched_trans; [apply fetched_ignore | exact Hf]|]);
        (split; [lia | exact Hx]).
  - exists []. split; [apply fetched_set_memory_backend|]. simpl. split; [lia|reflexivity].
Qed.

Lemma fetch_from_worker_fetched target g :
  match fetch_from_worker target g with
  | Returned g' =>
      exists new, fetched new g g' /\ phase g' = phase g /\
                  (memory_backend g <> None -> num_steps target <= total_length new)
  | Blocked g' =>
      exists new, fetched new g g' /\ total_length new < num_steps target
  | OutOfFuel => False
  end.
Proof.
  unfold fetch_from_worker.
  destruct (memory_backend g) as [incoming|] eqn:Hbk.
  - unfold phase_context.
    pose proof (fetch_loop_fetched (num_steps target) incoming (set_phase TRAIN g) 0) as H.
    destruct (fetch_loop (num_steps target) incoming (set_phase TRAIN g) 0)
      as [g' | g' |]; [| |exact H]; destruct H as (new & Hf & Hsum & Hx).
    + exists new. split; [|split; [reflexivity | intros _; lia]].
      replace new with ([] ++ (new ++ [])) by (simpl; apply app_nil_r).
      eapply fetched_trans; [|apply fetched_set_phase].
      eapply fetched_trans; [apply fetched_set_phase | exact Hf].
    + exists new. split; [|lia].
      rewrite <- (app_nil_r new).
      eapply fetched_trans; [apply fetched_set_phase | exact Hf].
  - exists []. split; [apply fetched_refl|]. split; [reflexivity|congruence].
Qed.

(** ** Reasoning about [while] *)

(** An invariant [I], indexed by the iteration number, carried through the
    loop; [Q] is what is wanted of the outcome. *)
Lemma while_rule (I : nat -> MASTGraphManager -> Prop) (Q : Outcome -> Prop)
    (cond : MASTGraphManager -> bool) (body : nat -> MASTGraphManager -> Step) :
  (forall i g g', I i g -> cond g = true -> body i g = Continue g' -> I (S i) g') ->
  (forall i g o, I i g -> cond g = true -> body i g = Stop o -> Q o) ->
  (forall i g, I i g -> cond g = false -> Q (Returned g)) ->
  Q OutOfFuel ->
  forall fuel i g, I i g -> Q (while cond body fuel i g).
Proof.
  intros Hcont Hstop Hexit Hfuel.
  induction fuel as [|fuel IH]; intros i g Hi; cbn [while];
    destruct (cond g) eqn:Hc; try (eapply Hexit; eassumption).
  - exact Hfuel.
  - destruct (body i g) as [g' | o] eqn:Hb.
    + apply IH. eapply Hcont; eassumption.
    + eapply Hstop; eassumption.
Qed.

(** Two loops whose bodies agree at every iteration agree. *)
Lemma while_ext cond body1 body2 :
  (forall i g, body1 i g = body2 i g) ->
  forall fuel i g, while cond body1 fuel i g = while cond body2 fuel i g.
Proof.
  intros Hsame. induction fuel as [|fuel IH]; intros i g; cbn [while];
    destruct (cond g); try reflexivity.
  rewrite Hsame. destruct (body2 i g); [apply IH | reflexivity].
Qed.

(** ** The publish phase *)

Lemma publish_due_spec g :
  publish_due g = true <->
  num_steps (mast_trainer_publish_policy_every_num_fetched_steps (params g))
  <= Agent.total_steps_counter (agent g) - last_publish_step g.
Proof. unfold publish_due. apply Z.leb_le. Qed.

(** One iteration of the trainer that comes back from its fetch phase: what
    was fetched, and whether a publish followed. *)
Lemma trainer_body_continue co i g g' :
  trainer_body co i g = Continue g' ->
  exists new g1,
    fetch_from_worker (num_consecutive_playing_steps (params g)) g = Returned g1 /\
    fetched new g g1 /\ phase g1 = phase g /\
    (memory_backend g <> None ->
     num_steps (num_consecutive_playing_steps (params g)) <= total_length new) /\
    ((publish_due (train g1) = true /\ g' = publish (checkpoint_due co i) (train g1)) \/
     (publish_due (train g1) = false /\ g' = train g1)).
Proof.
  unfold trainer_body. intros Hbody.
  pose proof (fetch_from_worker_fetched (num_consecutive_playing_steps (params g)) g) as Hf.
  destruct (fetch_from_worker (num_consecutive_playing_steps (params g)) g)
    as [g1 | g1 |]; try discriminate.
  destruct Hf as (new & Hf & Hph & Htarget).
  exists new, g1.
  split; [reflexivity|]. split; [exact Hf|]. split; [exact Hph|].
  split; [exact Htarget|].
  destruct (publish_due (train g1)); inversion Hbody; subst; auto.
Qed.

(** C3.  In an iteration of the trainer's loop that starts with the
    environment-step counter equal to the agent's total (as it is from
    [__init__] on), a policy is published at the end of the train phase
    exactly when the agent's total, less the step of the last publish, has
    reached the threshold.  Publishing adds one to [latest_policy_id], calls
    [sync] and then [save_policy], and sets [last_publish_step] to the
    current total, so that the difference is back to 0.  Otherwise the
    identifier, the trace of [save_policy] calls and [last_publish_step] are
    unchanged. *)
Theorem publish_cadence :
  forall (co : Collaborators) (i : nat) (g g' : MASTGraphManager),
    environment_steps (current_step_counter g) = Agent.total_steps_counter (agent g) ->
    trainer_body co i g = Continue g' ->
    let threshold :=
      num_steps (mast_trainer_publish_policy_every_num_fetched_steps (params g)) in
    let since := Agent.total_steps_counter (agent g') - last_publish_step g in
    (threshold <= since ->
       latest_policy_id g' = latest_policy_id g + 1 /\
       saves (events g') = saves (events g) + 1 /\
       (exists older,
          events g' = LogPublished (latest_policy_id g + 1)
                        :: OccasionallySaveCheckpoint (checkpoint_due co i)
                        :: SavePolicy (latest_policy_id g + 1)
                        :: Sync :: Train :: older) /\
       last_publish_step g' = Agent.total_steps_counter (agent g') /\
       Agent.total_steps_counter (agent g') - last_publish_step g' = 0) /\
    (since < threshold ->
       latest_policy_id g' = latest_policy_id g /\
       saves (events g') = saves (events g) /\
       last_publish_step g' = last_publish_step g).
Proof.
  intros co i g g' Hsync Hbody threshold since. subst threshold since.
  destruct (trainer_body_continue co i g g' Hbody)
    as (new & g1 & _ & Hf & _ & _ & Hcase).
  destruct Hf as (Hid & Hpub & Hpar & _ & Hsaves & _ & _ & _ & _ & _ & Htot & Hcons).
  specialize (Hcons Hsync).
  destruct Hcase as [[Hdue ->] | [Hdue ->]].
  - apply publish_due_spec in Hdue. cbn -[Z.add Z.sub] in Hdue.
    rewrite Hpar, Hpub in Hdue.
    split.
    + intros _. cbn -[Z.add Z.sub]. rewrite Hid, Hsaves, Hcons.
      repeat split; try lia. eexists. reflexivity.
    + cbn -[Z.add Z.sub]. intros Hlt. lia.
  - assert (Hnot : ~ num_steps (mast_trainer_publish_policy_every_num_fetched_steps
                                  (params (train g1)))
                     <= Agent.total_steps_counter (agent (train g1))
                        - last_publish_step (train g1)).
    { intros Hle. apply publish_due_spec in Hle. congruence. }
    cbn -[Z.add Z.sub] in Hnot. rewrite Hpar, Hpub in Hnot.
    split.
    + cbn -[Z.add Z.sub]. intros Hle. lia.
    + intros _. cbn -[Z.add Z.sub]. repeat split; assumption.
Qed.

Lemma publish_cadence_witness :
  let incoming := [sample_episode 1 1 3 120; sample_episode 1 2 3 90] in
  let g := sample_trainer 3 900 0 200 1000 (Some incoming) in
  let co := mkCollaborators (fun _ => 1%positive) (fun _ => false) false in
  exists g', trainer_body co 0 g = Continue g' /\
             latest_policy_id g' = 4 /\ last_publish_step g' = 1110.
Proof.
  intros incoming g co.
  assert (Hrun : exists g', trainer_body co 0 g = Continue g').
  { eexists. vm_compute. reflexivity. }
  destruct Hrun as (g' & Hrun). exists g'.
  pose proof (publish_cadence co 0%nat g g' eq_refl Hrun) as [Hpub _].
  assert (Htotal : Agent.total_steps_counter (agent g') = 1110).
  { revert Hrun. vm_compute. intros H. inversion H. reflexivity. }
  destruct Hpub as (Hid & _ & _ & Hmark & _).
  - rewrite Htotal. vm_compute. discriminate.
  - split; [exact Hrun|]. split; [exact Hid|]. rewrite Hmark. exact Htotal.
Defined.

(** ** Publishes are fed by fresh steps *)

Lemma publishes_fed_split threshold :
  forall (after : list Event) (id : Z) (before : list Event),
    publishes_fed threshold (after ++ SavePolicy id :: before) ->
    threshold <= total_length (stored_since_publish before) /\
    Forall (fun e => Episode.policy_id e = id - 1) (stored_since_publish before).
Proof.
  induction after as [|ev after IH]; intros id before Hfed.
  - simpl in Hfed. tauto.
  - apply IH. destruct ev; simpl in Hfed; tauto.
Qed.

Lemma fetched_consistent new g g' :
  fetched new g g' -> trainer_consistent g -> trainer_consistent g'.
Proof.
  intros (Hid & Hpub & Hpar & _ & _ & _ & _ & Hfed & Hst & Hnew & Htot & Hcons)
         (C1 & C2 & C3 & C4).
  unfold trainer_consistent.
  rewrite Hst, Hpub, Htot, Hid, Hpar, total_length_app.
  split; [rewrite <- Htot; auto|]. split; [lia|].
  split; [apply Forall_app; split; assumption | auto].
Qed.

Lemma trainer_body_consistent co i g g' :
  trainer_consistent g -> trainer_body co i g = Continue g' ->
  trainer_consistent g' /\ params g' = params g /\
  training_steps (current_step_counter g')
    = training_steps (current_step_counter g) + 1.
Proof.
  intros Hc Hbody.
  destruct (trainer_body_continue co i g g' Hbody)
    as (new & g1 & _ & Hf & _ & _ & Hcase).
  pose proof (fetched_consistent new g g1 Hf Hc) as (C1 & C2 & C3 & C4).
  destruct Hf as (_ & _ & Hpar & Htrain & _).
  destruct Hcase as [[Hdue ->] | [Hdue ->]].
  - apply publish_due_spec in Hdue. cbn -[Z.add Z.sub] in Hdue.
    split; [|split; [exact Hpar | cbn -[Z.add Z.sub]; lia]].
    unfold trainer_consistent. cbn -[Z.add Z.sub total_length].
    change (total_length []) with 0.
    split; [exact C1|]. split; [lia|]. split; [constructor|].
    split; [lia|]. split; [|exact C4].
    replace (latest_policy_id g1 + 1 - 1) with (latest_policy_id g1) by lia.
    exact C3.
  - split; [|split; [exact Hpar | cbn -[Z.add Z.sub]; lia]].
    unfold trainer_consistent. cbn -[Z.add Z.sub]. auto.
Qed.

Lemma trainer_body_stop co i g o :
  trainer_body co i g = Stop o ->
  exists gb new, o = Blocked gb /\ fetched new g gb.
Proof.
  unfold trainer_body. intros Hbody.
  pose proof (fetch_from_worker_fetched (num_consecutive_playing_steps (params g)) g) as Hf.
  destruct (fetch_from_worker (num_consecutive_playing_steps (params g)) g)
    as [g1 | g1 |]; try contradiction.
  - destruct (publish_due (train g1)); discriminate.
  - destruct Hf as (new & Hf & _). inversion Hbody; subst. eauto.
Qed.

(** The trainer's loop never runs out of the iterations the model grants
    it: every iteration that goes on counts one training step. *)
Lemma trainer_loop_total co :
  forall (count_end : Z) (fuel i : nat) (g : MASTGraphManager),
    trainer_consistent g ->
    count_end - training_steps (current_step_counter g) <= Z.of_nat fuel ->
    while (fun s => counter_lt (current_step_counter s) (TrainingSteps count_end))
          (trainer_body co) fuel i g <> OutOfFuel.
Proof.
  intros count_end.
  induction fuel as [|fuel IH]; intros i g Hc Hm; cbn [while counter_lt];
    destruct (Z.ltb_spec (training_steps (current_step_counter g)) count_end)
      as [Hlt | Hge]; try discriminate; try lia.
  destruct (trainer_body co i g) as [g' | o] eqn:Hb.
  - destruct (trainer_body_consistent co i g g' Hc Hb) as (Hc' & _ & Hts).
    apply IH; [exact Hc' | lia].
  - destruct (trainer_body_stop co i g o Hb) as (gb & new & -> & _). discriminate.
Qed.

Lemma trainer_loop_consistent co count_end :
  forall (fuel i : nat) (g : MASTGraphManager),
    trainer_consistent g ->
    ends_with (fun g' => trainer_consistent g' /\ params g' = params g)
      (while (fun s => counter_lt (current_step_counter s) (TrainingSteps count_end))
             (trainer_body co) fuel i g).
Proof.
  intros fuel i g Hc.
  apply (while_rule
           (fun _ s => trainer_consistent s /\ params s = params g)
           (ends_with (fun g' => trainer_consistent g' /\ params g' = params g)));
    try (simpl; tauto).
  - intros j s s' [Hs Hp] _ Hb.
    destruct (trainer_body_consistent co j s s' Hs Hb) as (Hs' & Hp' & _).
    split; [exact Hs' | congruence].
  - intros j s o [Hs Hp] _ Hb.
    destruct (trainer_body_stop co j s o Hb) as (gb & new & -> & Hf).
    simpl. split; [eapply fetched_consistent; eassumption|].
    destruct Hf as (_ & _ & Hpar & _). congruence.
Qed.

(** The steps before the loop keep the counters and the trace in agreement. *)
Lemma trainer_prologue_consistent g :
  trainer_consistent g ->
  trainer_consistent
    (trainer_specific_logging_updates
       (reset_internal_state (set_phase TRAIN (setup_memory_backend (sync g))))).
Proof.
  unfold trainer_consistent, setup_memory_backend. cbn -[Z.add Z.sub].
  destruct (memory_backend_params (params g)); cbn -[Z.add Z.sub]; auto.
Qed.

(** A fetch that is offered no on-policy episode waits for ever, and the
    iteration it belongs to neither trains nor publishes. *)
Lemma starved_fetch_blocks target :
  forall (incoming : list Episode.t) (g : MASTGraphManager) (steps : Z),
    steps < target ->
    Forall (fun e => Episode.policy_id e <> latest_policy_id g) incoming ->
    exists gb, fetch_loop target incoming g steps = Blocked gb /\
               agent gb = agent g /\
               saves (events gb) = saves (events g) /\
               trainings (events gb) = trainings (events g).
Proof.
  induction incoming as [|e rest IH]; intros g steps Hlt Hstale; cbn [fetch_loop];
    replace (steps <? target) with true by (symmetry; apply Z.ltb_lt; lia).
  - eexists. split; [reflexivity|]. repeat split.
  - inversion Hstale as [|? ? He Hrest]; subst.
    unfold fetch_step. apply Z.eqb_neq in He. rewrite He.
    destruct (IH (ignore_episode e g) steps Hlt Hrest) as (gb & Hrun & Ha & Hs & Ht).
    exists gb. split; [exact Hrun|]. repeat split; assumption.
Qed.

(** The whole trainer, seen as its loop started after the prologue. *)
Lemma trainer_unfold total ds co g :
  0 < total ->
  let g1 := trainer_specific_logging_updates
              (reset_internal_state (set_phase TRAIN (setup_memory_backend (sync g)))) in
  trainer total ds co g =
  match while (fun s => counter_lt (current_step_counter s)
                          (TrainingSteps (training_steps (current_step_counter g1) + total)))
              (trainer_body co) (Z.to_nat total) 0 g1 with
  | Returned g' => Returned (set_phase (phase (setup_memory_backend (sync g))) g')
  | o => o
  end.
Proof.
  intros Hpos g1. unfold trainer, phase_context.
  replace (0 <? total) with true by (symmetry; apply Z.ltb_lt; lia).
  reflexivity.
Qed.

(** C5.  With a positive publish threshold, a trainer that starts with its
    counters and trace in agreement (as [__init__] leaves them) ends, whether
    it returns or waits on the subscription, with a trace in which every
    [save_policy] call comes after at least threshold-many, hence more than
    zero, environment steps of episodes stored since the previous publish,
    each of them tagged with the policy that was current before that
    publish.  A fetch that is offered no on-policy episode does not return:
    the iteration waits inside the fetch loop, and neither trains nor
    publishes. *)
Theorem publish_needs_fresh_steps :
  forall (total : Z) (ds : RedisDataStore) (co : Collaborators) (g : MASTGraphManager),
    let threshold :=
      num_steps (mast_trainer_publish_policy_every_num_fetched_steps (params g)) in
    0 < threshold ->
    trainer_consistent g ->
    trainer total ds co g <> OutOfFuel /\
    ends_with
      (fun g' =>
         forall after id before,
           events g' = after ++ SavePolicy id :: before ->
           0 < total_length (stored_since_publish before) /\
           threshold <= total_length (stored_since_publish before) /\
           Forall (fun e => Episode.policy_id e = id - 1) (stored_since_publish before))
      (trainer total ds co g) /\
    (forall (i : nat) (g0 : MASTGraphManager) (incoming : list Episode.t),
        memory_backend g0 = Some incoming ->
        0 < num_steps (num_consecutive_playing_steps (params g0)) ->
        Forall (fun e => Episode.policy_id e <> latest_policy_id g0) incoming ->
        exists gb, trainer_body co i g0 = Stop (Blocked gb) /\
                   agent gb = agent g0 /\
                   saves (events gb) = saves (events g0) /\
                   trainings (events gb) = trainings (events g0)).
Proof.
  intros total ds co g threshold Hpos Hc.
  assert (Hfinal : forall g', trainer_consistent g' -> params g' = params g ->
            forall after id before,
              events g' = after ++ SavePolicy id :: before ->
              0 < total_length (stored_since_publish before) /\
              threshold <= total_length (stored_since_publish before) /\
              Forall (fun e => Episode.policy_id e = id - 1) (stored_since_publish before)).
  { intros g' (_ & _ & _ & Hfed) Hpar after id before Hev.
    rewrite Hev, Hpar in Hfed.
    destruct (publishes_fed_split _ after id before Hfed) as [Hle Hall].
    subst threshold. repeat split; [lia | exact Hle | exact Hall]. }
  split; [|split].
  - destruct (Z.ltb_spec 0 total) as [Ht | Ht].
    + rewrite (trainer_unfold total ds co g Ht). cbv zeta.
      pose proof (trainer_loop_total co
                    (training_steps (current_step_counter
                       (trainer_specific_logging_updates
                          (reset_internal_state
                             (set_phase TRAIN (setup_memory_backend (sync g))))))
                     + total)
                    (Z.to_nat total) 0%nat _ (trainer_prologue_consistent g Hc)) as Hfuel.
      match goal with |- match ?w with _ => _ end <> _ => destruct w end;
        try discriminate.
      apply Hfuel. lia.
    + unfold trainer.
      replace (0 <? total) with false by (symmetry; apply Z.ltb_ge; lia).
      discriminate.
  - destruct (Z.ltb_spec 0 total) as [Ht | Ht].
    + rewrite (trainer_unfold total ds co g Ht). cbv zeta.
      pose proof (trainer_loop_consistent co
                    (training_steps (current_step_counter
                       (trainer_specific_logging_updates
                          (reset_internal_state
                             (set_phase TRAIN (setup_memory_backend (sync g))))))
                     + total)
                    (Z.to_nat total) 0%nat _ (trainer_prologue_consistent g Hc)) as Hinv.
      assert (Hpar0 : params (trainer_specific_logging_updates
                          (reset_internal_state
                             (set_phase TRAIN (setup_memory_backend (sync g)))))
                      = params g).
      { unfold setup_memory_backend. cbn.
        destruct (memory_backend_params (params g)); reflexivity. }
      match goal with |- ends_with _ (match ?w with _ => _ end) => destruct w end;
        cbn [ends_with] in Hinv |- *; try exact I.
      * destruct Hinv as [Hc' Hp']. intros after id before Hev.
        eapply (Hfinal g0); [exact Hc' | congruence | exact Hev].
      * destruct Hinv as [Hc' Hp']. intros after id before Hev.
        eapply (Hfinal g0); [exact Hc' | congruence | exact Hev].
    + unfold trainer.
      replace (0 <? total) with false by (symmetry; apply Z.ltb_ge; lia).
      simpl. intros after id before Hev.
      eapply (Hfinal (setup_memory_backend (sync g))); [| | exact Hev].
      * unfold trainer_consistent, setup_memory_backend in *.
        destruct (memory_backend_params (params (sync g))); cbn -[Z.add Z.sub]; exact Hc.
      * unfold setup_memory_backend.
        destruct (memory_backend_params (params (sync g))); reflexivity.
  - intros i g0 incoming Hbk Htarget Hstale.
    destruct (starved_fetch_blocks
                (num_steps (num_consecutive_playing_steps (params g0)))
                incoming (set_phase TRAIN g0) 0 Htarget Hstale)
      as (gb & Hrun & Ha & Hs & Ht).
    exists gb. unfold trainer_body, fetch_from_worker, phase_context.
    rewrite Hbk, Hrun. repeat split; assumption.
Qed.

Lemma publish_needs_fresh_steps_witness :
  let fresh := [sample_episode 1 1 0 2; sample_episode 1 2 0 2;
                sample_episode 1 3 1 2; sample_episode 1 4 1 2] in
  let p := mkParameters (EnvironmentSteps 2) (EnvironmentSteps 3) None (Some fresh) in
  let ds := mkStore (fun _ => false) (fun _ => None) in
  let co := mkCollaborators (fun _ => 1%positive) (fun _ => false) false in
  trainer 3 ds co (init p) <> OutOfFuel.
Proof.
  intros fresh p ds co.
  apply (publish_needs_fresh_steps 3 ds co (init p)).
  - vm_compute. reflexivity.
  - unfold trainer_consistent. simpl. repeat split; constructor.
Defined.

(** ** Loops that never wait *)

(** Total correctness of a loop whose body either goes on, lowering a
    measure, or breaks. *)
Lemma while_total (I : nat -> MASTGraphManager -> Prop) (P : MASTGraphManager -> Prop)
    (measure : MASTGraphManager -> Z)
    (cond : MASTGraphManager -> bool) (body : nat -> MASTGraphManager -> Step) :
  (forall i g g', I i g -> cond g = true -> body i g = Continue g' ->
                  I (S i) g' /\ measure g' <= measure g - 1) ->
  (forall i g o, I i g -> cond g = true -> body i g = Stop o ->
                 exists g', o = Returned g' /\ P g') ->
  (forall i g, I i g -> cond g = false -> P g) ->
  (forall g, cond g = true -> 0 < measure g) ->
  forall fuel i g, I i g -> measure g <= Z.of_nat fuel ->
                   exists g', while cond body fuel i g = Returned g' /\ P g'.
Proof.
  intros Hcont Hstop Hexit Hpos.
  induction fuel as [|fuel IH]; intros i g Hi Hm; cbn [while];
    destruct (cond g) eqn:Hc; try (eexists; split; [reflexivity | eauto]).
  - specialize (Hpos g Hc). lia.
  - destruct (body i g) as [g' | o] eqn:Hb.
    + destruct (Hcont i g g' Hi Hc Hb) as [Hi' Hdec]. apply IH; [exact Hi' | lia].
    + exact (Hstop i g o Hi Hc Hb).
Qed.

(** ** One iteration of the actor and of the evaluator *)

Lemma refresh_policy_spec ds i g :
  let g' := refresh_policy ds i g in
  let gain := match attempt_load_policy ds i with Some _ => 1 | None => 0 end in
  latest_policy_id g' = latest_policy_id g + gain /\
  loads (events g') = loads (events g) + gain /\
  acts (events g') = acts (events g) /\
  attempt_steps (events g')
    = environment_steps (current_step_counter g) :: attempt_steps (events g) /\
  current_step_counter g' = current_step_counter g /\
  phase g' = phase g /\
  params g' = params g /\
  (Agent.policy_id (agent g) = latest_policy_id g ->
   Agent.policy_id (agent g') = latest_policy_id g') /\
  (attempt_load_policy ds i <> None ->
   Agent.policy_id (agent g') = latest_policy_id g + 1).
Proof.
  unfold refresh_policy.
  destruct (attempt_load_policy ds i); cbn -[Z.add]; repeat split;
    try lia; try congruence.
Qed.

Lemma actor_body_stop ds co i g o :
  actor_body ds co i g = Stop o -> o = Returned g /\ end_of_policies ds i = true.
Proof.
  unfold actor_body. destruct (end_of_policies ds i); [|discriminate].
  intros H; inversion H; auto.
Qed.

(** What an iteration of the actor that acts changes. *)
Lemma actor_body_continue ds co i g g' :
  actor_body ds co i g = Continue g' ->
  let at_step := environment_steps (current_step_counter g) in
  end_of_policies ds i = false /\
  environment_steps (current_step_counter g') = at_step + Z.pos (steps_taken co i) /\
  acts (events g') = acts (events g) + 1 /\
  latest_policy_id g' - loads (events g')
    = latest_policy_id g - loads (events g) /\
  (Agent.policy_id (agent g) = latest_policy_id g ->
   Agent.policy_id (agent g') = latest_policy_id g') /\
  attempt_steps (events g')
    = (if at_step mod 200 =? 0 then [at_step] else []) ++ attempt_steps (events g) /\
  phase g' = phase g /\ params g' = params g.
Proof.
  unfold actor_body. destruct (end_of_policies ds i); [discriminate|].
  intros H; inversion H; subst; clear H. cbv zeta.
  destruct (environment_steps (current_step_counter g) mod 200 =? 0).
  - pose proof (refresh_policy_spec ds i g) as Hr. cbv zeta in Hr.
    destruct Hr as (R1 & R2 & R3 & R4 & R5 & R6 & R7 & R8 & _).
    cbn -[Z.add Z.sub Z.modulo]. rewrite R3, R4, R5, R6, R7.
    repeat split; try lia; try assumption; reflexivity.
  - cbn -[Z.add Z.sub Z.modulo]. repeat split; try lia; auto.
Qed.

Lemma evaluate_body_stop ds co i g o :
  evaluate_body ds co i g = Stop o -> o = Returned g /\ end_of_policies ds i = true.
Proof.
  unfold evaluate_body. destruct (end_of_policies ds i); [|discriminate].
  intros H; inversion H; auto.
Qed.

Lemma evaluation_episode_spec taken g :
  let g' := evaluation_episode taken g in
  environment_steps (current_step_counter g')
    = environment_steps (current_step_counter g) + Z.pos taken /\
  acts (events g') = acts (events g) + 1 /\
  loads (events g') = loads (events g) /\
  latest_policy_id g' = latest_policy_id g /\
  agent g' = agent g /\
  params g' = params g /\
  last_publish_step g' = last_publish_step g /\
  memory_backend g' = memory_backend g.
Proof.
  unfold evaluation_episode.
  destruct (evaluate_only (params g)) eqn:He; cbn -[Z.add]; rewrite ?He;
    cbn -[Z.add]; repeat split; lia.
Qed.

(** What an iteration of the evaluator that runs an episode changes. *)
Lemma evaluate_body_continue ds co i g g' :
  evaluate_body ds co i g = Continue g' ->
  end_of_policies ds i = false /\
  environment_steps (current_step_counter g')
    = environment_steps (current_step_counter g) + Z.pos (steps_taken co i) /\
  acts (events g') = acts (events g) + 1 /\
  latest_policy_id g' - loads (events g')
    = latest_policy_id g - loads (events g) /\
  (Agent.policy_id (agent g) = latest_policy_id g ->
   Agent.policy_id (agent g') = latest_policy_id g') /\
  params g' = params g.
Proof.
  unfold evaluate_body. destruct (end_of_policies ds i); [discriminate|].
  intros H; inversion H; subst; clear H.
  pose proof (refresh_policy_spec ds i g) as Hr. cbv zeta in Hr.
  destruct Hr as (R1 & R2 & R3 & R4 & R5 & R6 & R7 & R8 & _).
  pose proof (evaluation_episode_spec (steps_taken co i) (refresh_policy ds i g)) as He.
  cbv zeta in He. destruct He as (E1 & E2 & E3 & E4 & E5 & E6 & _).
  rewrite E1, E2, E3, E4, E5, E6, R5. repeat split; try lia; try assumption.
Qed.

(** ** The actor's and the evaluator's loops as a whole *)

Lemma actor_unfold n ds co g :
  0 < n ->
  actor n ds co g =
  match while (fun s => counter_lt (current_step_counter s)
                          (EnvironmentSteps (environment_steps (current_step_counter g) + n)))
              (actor_body ds co) (Z.to_nat n) 0
              (reset_internal_state (set_phase TRAIN (sync g))) with
  | Returned g' => Returned (set_phase (phase g) g')
  | o => o
  end.
Proof.
  intros Hpos. unfold actor, phase_context.
  replace (0 <? n) with true by (symmetry; apply Z.ltb_lt; lia).
  reflexivity.
Qed.

Lemma evaluate_loop_unfold n ds co g :
  0 < n ->
  evaluate_loop n ds co g =
  match while (fun s => counter_lt (current_step_counter s)
                          (EnvironmentSteps (environment_steps (current_step_counter g) + n)))
              (evaluate_body ds co) (Z.to_nat n) 0
              (reset_internal_state (set_phase TEST (sync g))) with
  | Returned g' => Returned (set_phase (phase g) g')
  | o => o
  end.
Proof.
  intros Hpos. unfold evaluate_loop, phase_context.
  replace (0 <? n) with true by (symmetry; apply Z.ltb_lt; lia).
  reflexivity.
Qed.

(** A loop bounded in environment steps whose body polls the end-of-run
    signal first and otherwise acts once: it returns, with its invariant,
    having stopped either on its budget or on the signal. *)
Lemma polling_loop_returns (I : nat -> MASTGraphManager -> Prop)
    (ds : RedisDataStore) (co : Collaborators)
    (body : nat -> MASTGraphManager -> Step) (count_end : Z) :
  (forall i s s', body i s = Continue s' ->
     end_of_policies ds i = false /\
     environment_steps (current_step_counter s')
       = environment_steps (current_step_counter s) + Z.pos (steps_taken co i)) ->
  (forall i s o, body i s = Stop o -> o = Returned s /\ end_of_policies ds i = true) ->
  (forall i s s', I i s -> body i s = Continue s' -> I (S i) s') ->
  forall fuel i g,
    I i g ->
    count_end - environment_steps (current_step_counter g) <= Z.of_nat fuel ->
    exists g' j,
      while (fun s => counter_lt (current_step_counter s) (EnvironmentSteps count_end))
            body fuel i g = Returned g' /\
      I j g' /\
      (count_end <= environment_steps (current_step_counter g') \/
       end_of_policies ds j = true).
Proof.
  intros Hcont Hstop Hinv fuel i g Hi Hm.
  destruct (while_total I
              (fun g' => exists j, I j g' /\
                 (count_end <= environment_steps (current_step_counter g') \/
                  end_of_policies ds j = true))
              (fun s => count_end - environment_steps (current_step_counter s))
              (fun s => counter_lt (current_step_counter s) (EnvironmentSteps count_end))
              body) with (fuel := fuel) (i := i) (g := g) as (g' & Hrun & j & Hj & Hend);
    try assumption.
  - intros k s s' Hk _ Hb. split; [eapply Hinv; eassumption|].
    destruct (Hcont k s s' Hb) as [_ Hsteps]. lia.
  - intros k s o Hk _ Hb. destruct (Hstop k s o Hb) as [-> Heop].
    exists s. split; [reflexivity|]. exists k. auto.
  - intros k s Hk Hc. exists k. split; [exact Hk|]. left.
    cbn [counter_lt] in Hc. apply Z.ltb_ge in Hc. exact Hc.
  - intros s Hc. cbn [counter_lt] in Hc. apply Z.ltb_lt in Hc. lia.
  - exists g', j. auto.
Qed.

(** The actor returns, with any invariant of its iterations that holds when
    the loop is entered and is indifferent to the phase. *)
Lemma actor_returns (I : nat -> MASTGraphManager -> Prop) n ds co g :
  (forall i s s', I i s -> actor_body ds co i s = Continue s' -> I (S i) s') ->
  (forall i s p, I i s -> I i (set_phase p s)) ->
  I 0%nat (reset_internal_state (set_phase TRAIN (sync g))) ->
  I 0%nat (sync g) ->
  exists g' j, actor n ds co g = Returned g' /\ I j g' /\ phase g' = phase g.
Proof.
  intros Hinv Hphase Hinit Hinit0.
  destruct (Z.ltb_spec 0 n) as [Hpos | Hle].
  - rewrite (actor_unfold n ds co g Hpos).
    destruct (polling_loop_returns I ds co (actor_body ds co)
                (environment_steps (current_step_counter g) + n))
      with (fuel := Z.to_nat n) (i := 0%nat)
           (g := reset_internal_state (set_phase TRAIN (sync g)))
      as (g' & j & Hrun & Hj & _); try assumption.
    + intros i s s' Hb. pose proof (actor_body_continue ds co i s s' Hb) as Hc.
      cbv zeta in Hc. tauto.
    + apply actor_body_stop.
    + cbn -[Z.add Z.sub]. lia.
    + rewrite Hrun. exists (set_phase (phase g) g'), j.
      split; [reflexivity|]. split; [apply Hphase; exact Hj | reflexivity].
  - unfold actor. replace (0 <? n) with false by (symmetry; apply Z.ltb_ge; lia).
    exists (sync g), 0%nat. split; [reflexivity|]. split; [exact Hinit0 | reflexivity].
Qed.

(** The evaluator's loop returns, likewise. *)
Lemma evaluate_loop_returns (I : nat -> MASTGraphManager -> Prop) n ds co g :
  (forall i s s', I i s -> evaluate_body ds co i s = Continue s' -> I (S i) s') ->
  (forall i s p, I i s -> I i (set_phase p s)) ->
  I 0%nat (reset_internal_state (set_phase TEST (sync g))) ->
  I 0%nat (sync g) ->
  exists g' j, evaluate_loop n ds co g = Returned g' /\ I j g' /\ phase g' = phase g.
Proof.
  intros Hinv Hphase Hinit Hinit0.
  destruct (Z.ltb_spec 0 n) as [Hpos | Hle].
  - rewrite (evaluate_loop_unfold n ds co g Hpos).
    destruct (polling_loop_returns I ds co (evaluate_body ds co)
                (environment_steps (current_step_counter g) + n))
      with (fuel := Z.to_nat n) (i := 0%nat)
           (g := reset_internal_state (set_phase TEST (sync g)))
      as (g' & j & Hrun & Hj & _); try assumption.
    + intros i s s' Hb. pose proof (evaluate_body_continue ds co i s s' Hb) as Hc.
      tauto.
    + apply evaluate_body_stop.
    + cbn -[Z.add Z.sub]. lia.
    + rewrite Hrun. exists (set_phase (phase g) g'), j.
      split; [reflexivity|]. split; [apply Hphase; exact Hj | reflexivity].
  - unfold evaluate_loop. replace (0 <? n) with false by (symmetry; apply Z.ltb_ge; lia).
    exists (sync g), 0%nat. split; [reflexivity|]. split; [exact Hinit0 | reflexivity].
Qed.

(** ** The end-of-run signal *)

(** C4, as claimed, fails for the trainer: with the end-of-run signal set
    before the trainer starts, a trainer asked for three training steps still
    fetches, and trains, three times. *)
Lemma end_of_run_does_not_stop_trainer :
  let fresh := [sample_episode 1 1 0 2; sample_episode 1 2 0 2; sample_episode 1 3 0 2] in
  let p := mkParameters (EnvironmentSteps 2) (EnvironmentSteps 100) None (Some fresh) in
  let ds := mkStore (fun _ => true) (fun _ => None) in
  let co := mkCollaborators (fun _ => 1%positive) (fun _ => false) false in
  exists g', trainer 3 ds co (init p) = Returned g' /\
             trainings (events g') = 3 /\
             Agent.total_steps_counter (agent g') = 6 /\
             ~ trainings (events g') <= 1.
Proof.
  intros fresh p ds co. eexists. split; [vm_compute; reflexivity|].
  split; [vm_compute; reflexivity|]. split; [vm_compute; reflexivity|].
  vm_compute. intros H. apply H. reflexivity.
Qed.

(** C4, amended.  The actor and the evaluator poll the end-of-run signal at
    the top of every iteration: an iteration that finds it set leaves the
    loop at once, in the state it was entered in, so that no further call of
    [act] is made.  If the signal is set at iteration [k], the role returns
    after at most [k] calls of [act].  The trainer does not consult the
    signal: its result is the same whatever the store answers, and it runs
    until its budget of training steps is used up. *)
Theorem end_of_run_stops_actor_and_evaluator :
  forall (n : Z) (ds : RedisDataStore) (co : Collaborators) (g : MASTGraphManager)
         (k : nat),
    end_of_policies ds k = true ->
    actor_body ds co k g = Stop (Returned g) /\
    evaluate_body ds co k g = Stop (Returned g) /\
    (exists g', actor n ds co g = Returned g' /\
                acts (events g') <= acts (events g) + Z.of_nat k) /\
    (exists g', evaluate_loop n ds co g = Returned g' /\
                acts (events g') <= acts (events g) + Z.of_nat k) /\
    (forall ds', trainer n ds' co g = trainer n ds co g).
Proof.
  intros n ds co g k Hk.
  split; [unfold actor_body; rewrite Hk; reflexivity|].
  split; [unfold evaluate_body; rewrite Hk; reflexivity|].
  split; [|split; [|reflexivity]].
  - destruct (actor_returns
                (fun i s => (i <= k)%nat /\ acts (events s) = acts (events g) + Z.of_nat i)
                n ds co g) as (g' & j & Hrun & [Hj Hacts] & _).
    + intros i s s' [Hi Ha] Hb.
      pose proof (actor_body_continue ds co i s s' Hb) as Hc. cbv zeta in Hc.
      destruct Hc as (Heop & _ & Hact & _).
      assert (i <> k) by congruence. split; lia.
    + intros i s p H. exact H.
    + simpl. split; lia.
    + simpl. split; lia.
    + exists g'. split; [exact Hrun | lia].
  - destruct (evaluate_loop_returns
                (fun i s => (i <= k)%nat /\ acts (events s) = acts (events g) + Z.of_nat i)
                n ds co g) as (g' & j & Hrun & [Hj Hacts] & _).
    + intros i s s' [Hi Ha] Hb.
      destruct (evaluate_body_continue ds co i s s' Hb) as (Heop & _ & Hact & _).
      assert (i <> k) by congruence. split; lia.
    + intros i s p H. exact H.
    + simpl. split; lia.
    + simpl. split; lia.
    + exists g'. split; [exact Hrun | lia].
Qed.

Lemma end_of_run_stops_actor_and_evaluator_witness :
  let ds := mkStore (fun i => (2 <=? i)%nat) (fun _ => None) in
  let co := mkCollaborators (fun _ => 1%positive) (fun _ => false) false in
  let g := init (mkParameters (EnvironmentSteps 2) (EnvironmentSteps 3) None None) in
  exists g', actor 10 ds co g = Returned g' /\ acts (events g') <= 0 + 2.
Proof.
  intros ds co g.
  destruct (end_of_run_stops_actor_and_evaluator 10 ds co g 2%nat eq_refl)
    as (_ & _ & Hactor & _).
  exact Hactor.
Defined.

(** ** The actor's policy refresh *)

Lemma multiple_of_200_in_window a :
  exists m, a <= m < a + 200 /\ m mod 200 = 0.
Proof.
  exists (((a + 199) / 200) * 200).
  pose proof (Z.div_mod (a + 199) 200 ltac:(lia)) as Hdm.
  pose proof (Z.mod_pos_bound (a + 199) 200 ltac:(lia)) as Hb.
  split; [lia|]. apply Z.mod_mul. lia.
Qed.

(** C6, as claimed, fails when [act] consumes more than one environment
    step: an actor whose every call of [act] takes three steps passes
    through 400 steps and more, and its only refresh attempt is the one at
    step 0, so that the 200 steps from 200 on see none. *)
Lemma refresh_skipped_when_steps_jump :
  let ds := mkStore (fun _ => false) (fun _ => Some (mkPolicy 1 0)) in
  let co := mkCollaborators (fun _ => 3%positive) (fun _ => false) false in
  let g := init (mkParameters (EnvironmentSteps 2) (EnvironmentSteps 3) None None) in
  exists g', actor 400 ds co g = Returned g' /\
             environment_steps (current_step_counter g') = 402 /\
             attempt_steps (events g') = [0] /\
             ~ (exists s, 200 <= s < 400 /\ attempted_at s (events g')).
Proof.
  intros ds co g. eexists. split; [vm_compute; reflexivity|].
  split; [vm_compute; reflexivity|].
  split; [vm_compute; reflexivity|].
  intros (s & Hs & Hin). unfold attempted_at in Hin.
  vm_compute in Hin. destruct Hin as [<- | []]. lia.
Qed.

(** C6, amended.  The actor attempts a refresh in exactly those iterations
    that start with the environment-step counter at a multiple of 200.  If
    every call of [act] consumes exactly one environment step, the actor
    returns having attempted a refresh in every window of 200 consecutive
    steps that it went through.  In any case, when an attempt succeeds,
    [latest_policy_id] goes up by exactly one, the agent is tagged with the
    new value, and the call of [act] that follows in the same iteration runs
    under that tag. *)
Theorem refresh_every_200_single_steps :
  forall (n : Z) (ds : RedisDataStore) (co : Collaborators) (g : MASTGraphManager),
    (forall i s s', actor_body ds co i s = Continue s' ->
       attempt_steps (events s')
       = (if environment_steps (current_step_counter s) mod 200 =? 0
          then [environment_steps (current_step_counter s)] else [])
         ++ attempt_steps (events s)) /\
    ((forall i, steps_taken co i = 1%positive) ->
     exists g', actor n ds co g = Returned g' /\
       forall a, environment_steps (current_step_counter g) <= a ->
                 a + 200 <= environment_steps (current_step_counter g') ->
                 exists s, a <= s < a + 200 /\ attempted_at s (events g')) /\
    (forall i s pv,
       end_of_policies ds i = false ->
       environment_steps (current_step_counter s) mod 200 = 0 ->
       attempt_load_policy ds i = Some pv ->
       exists s' older,
         actor_body ds co i s = Continue s' /\
         latest_policy_id s' = latest_policy_id s + 1 /\
         Agent.policy_id (agent s') = latest_policy_id s + 1 /\
         events s' = Act (EnvironmentSteps 1) (latest_policy_id s + 1)
                         (Z.pos (steps_taken co i)) (phase s) :: older).
Proof.
  intros n ds co g. split; [|split].
  - intros i s s' Hb. pose proof (actor_body_continue ds co i s s' Hb) as Hc.
    cbv zeta in Hc. tauto.
  - intros Hone.
    set (c0 := environment_steps (current_step_counter g)).
    destruct (actor_returns
                (fun (_ : nat) s =>
                   forall m, c0 <= m < environment_steps (current_step_counter s) ->
                             m mod 200 = 0 -> attempted_at m (events s))
                n ds co g) as (g' & j & Hrun & Hj & _).
    + intros i s s' Hs Hb m Hm Hmod.
      pose proof (actor_body_continue ds co i s s' Hb) as Hc. cbv zeta in Hc.
      destruct Hc as (_ & Hsteps & _ & _ & _ & Hatt & _).
      rewrite Hone in Hsteps. unfold attempted_at. rewrite Hatt.
      apply in_or_app.
      destruct (Z.eq_dec m (environment_steps (current_step_counter s))) as [-> | Hne].
      * left. apply Z.eqb_eq in Hmod. rewrite Hmod. left. reflexivity.
      * right. apply Hs; [lia | exact Hmod].
    + intros i s p H. exact H.
    + cbn. intros m Hm. subst c0. lia.
    + cbn. intros m Hm. subst c0. lia.
    + exists g'. split; [exact Hrun|]. intros a Ha Hend.
      destruct (multiple_of_200_in_window a) as (m & Hm & Hmod).
      exists m. split; [exact Hm|]. apply Hj; [lia | exact Hmod].
  - intros i s pv Heop Hmod Hload.
    unfold actor_body. rewrite Heop. apply Z.eqb_eq in Hmod. rewrite Hmod.
    unfold refresh_policy. rewrite Hload.
    eexists. eexists. split; [reflexivity|]. cbn -[Z.add]. repeat split.
Qed.

Lemma refresh_every_200_single_steps_witness :
  let ds := mkStore (fun _ => false) (fun _ => Some (mkPolicy 1 0)) in
  let co := mkCollaborators (fun _ => 1%positive) (fun _ => false) false in
  let g := init (mkParameters (EnvironmentSteps 2) (EnvironmentSteps 3) None None) in
  exists g', actor 450 ds co g = Returned g' /\
    forall a, environment_steps (current_step_counter g) <= a ->
              a + 200 <= environment_steps (current_step_counter g') ->
              exists s, a <= s < a + 200 /\ attempted_at s (events g').
Proof.
  intros ds co g.
  destruct (refresh_every_200_single_steps 450 ds co g) as (_ & Hwin & _).
  apply Hwin. intros i. reflexivity.
Defined.

(** ** Checkpoints *)

(** C7, as claimed, fails: a checkpoint is only ever attempted inside the
    publish phase.  Two trainers that differ only in the step of their last
    publish, both with a checkpoint due, run one iteration on the same
    episode: the one that does not publish writes no checkpoint, the one that
    publishes writes one. *)
Lemma checkpoint_needs_publish :
  let incoming := [sample_episode 1 1 3 200] in
  let co := mkCollaborators (fun _ => 1%positive) (fun _ => true) false in
  let quiet := sample_trainer 3 1500 1400 200 1000 (Some incoming) in
  let ready := sample_trainer 3 1500 600 200 1000 (Some incoming) in
  (exists g', trainer_body co 0 quiet = Continue g' /\
              saves (events g') = 0 /\ checkpoints (events g') = 0) /\
  (exists g', trainer_body co 0 ready = Continue g' /\
              saves (events g') = 1 /\ checkpoints (events g') = 1).
Proof.
  intros incoming co quiet ready.
  split; eexists; (split; [vm_compute; reflexivity|]); split; vm_compute; reflexivity.
Qed.

(** C7, amended.  In an iteration of the trainer's loop a checkpoint is
    written only if a policy is published in that iteration:
    [occasionally_save_checkpoint] is called in the publish phase and nowhere
    else, so the iteration writes a checkpoint exactly when it publishes and
    a checkpoint is due; an iteration with no publish writes none. *)
Theorem checkpoint_only_with_publish :
  forall (co : Collaborators) (i : nat) (g g' : MASTGraphManager),
    trainer_body co i g = Continue g' ->
    let written := checkpoints (events g') - checkpoints (events g) in
    let published := saves (events g') - saves (events g) in
    0 <= written <= published /\ published <= 1 /\
    (written = 1 <-> published = 1 /\ checkpoint_due co i = true) /\
    (published = 0 -> written = 0).
Proof.
  intros co i g g' Hbody written published. subst written published.
  destruct (trainer_body_continue co i g g' Hbody)
    as (new & g1 & _ & Hf & _ & _ & Hcase).
  destruct Hf as (_ & _ & _ & _ & Hsaves & _ & Hck & _).
  destruct Hcase as [[_ ->] | [_ ->]]; cbn -[Z.add Z.sub]; rewrite Hsaves, Hck.
  - destruct (checkpoint_due co i); cbn -[Z.add Z.sub];
      repeat split; intros; try lia; try tauto; try discriminate.
  - repeat split; intros; try lia; try tauto.
Qed.

Lemma checkpoint_only_with_publish_witness :
  let incoming := [sample_episode 1 1 3 200] in
  let co := mkCollaborators (fun _ => 1%positive) (fun _ => true) false in
  let ready := sample_trainer 3 1500 600 200 1000 (Some incoming) in
  exists g', trainer_body co 0 ready = Continue g' /\
             checkpoints (events g') - checkpoints (events ready)
             <= saves (events g') - saves (events ready).
Proof.
  intros incoming co ready.
  assert (Hrun : exists g', trainer_body co 0 ready = Continue g').
  { eexists. vm_compute. reflexivity. }
  destruct Hrun as (g' & Hrun). exists g'. split; [exact Hrun|].
  pose proof (checkpoint_only_with_publish co 0%nat ready g' Hrun) as H.
  cbv zeta in H. destruct H as ((_ & H) & _). exact H.
Defined.

(** ** The evaluator's phase *)

(** C8, as claimed, fails in the first iteration of the evaluator's loop.
    The loop is entered in phase [TEST], set by the phase context around it;
    in evaluate-only mode the iteration ends in phase [TRAIN], which is not
    the phase that was in effect before the episode. *)
Lemma evaluation_episode_leaves_train_phase :
  let p := mkParameters (EnvironmentSteps 2) (EnvironmentSteps 3) (Some 1) None in
  let ds := mkStore (fun _ => false) (fun _ => None) in
  let co := mkCollaborators (fun _ => 5%positive) (fun _ => false) false in
  let entered := reset_internal_state (set_phase TEST (sync (init p))) in
  phase entered = TEST /\
  exists g', evaluate_body ds co 0 entered = Continue g' /\
             phase g' = TRAIN /\ phase g' <> phase entered.
Proof.
  intros p ds co entered. split; [reflexivity|].
  eexists. split; [vm_compute; reflexivity|].
  split; [reflexivity | discriminate].
Qed.

(** C8, amended.  In evaluate-only mode the evaluator's episode runs in
    phase [TEST], and after the episode the phase is set to [TRAIN] whatever
    it was before: the phase in effect before the episode is back afterwards
    exactly when it was [TRAIN].  Outside evaluate-only mode the iteration
    does not touch the phase.  Nothing else of the manager is toggled around
    the episode, and when [evaluate]'s loop returns, the phase context puts
    back the phase in which [evaluate] was called. *)
Theorem evaluation_episode_phase :
  forall (taken : positive) (g : MASTGraphManager),
    let g' := evaluation_episode taken g in
    (evaluate_only (params g) <> None ->
       phase g' = TRAIN /\
       events g' = Sync :: Act (EnvironmentEpisodes 1) (Agent.policy_id (agent g))
                               (Z.pos taken) TEST :: events g /\
       (phase g' = phase g <-> phase g = TRAIN)) /\
    (evaluate_only (params g) = None ->
       phase g' = phase g /\
       events g' = Sync :: Act (EnvironmentEpisodes 1) (Agent.policy_id (agent g))
                               (Z.pos taken) (phase g) :: events g) /\
    (latest_policy_id g' = latest_policy_id g /\
     last_publish_step g' = last_publish_step g /\
     agent g' = agent g /\
     memory_backend g' = memory_backend g /\
     params g' = params g) /\
    (forall n ds co,
       exists g'', evaluate_loop n ds co g = Returned g'' /\ phase g'' = phase g).
Proof.
  intros taken g g'. subst g'. unfold evaluation_episode.
  split; [|split; [|split]].
  - intros Hsome. destruct (evaluate_only (params g)) eqn:He; [|congruence].
    cbn. rewrite He. cbn. repeat split; congruence.
  - intros Hnone. rewrite Hnone. cbn. rewrite Hnone. split; reflexivity.
  - destruct (evaluate_only (params g)) eqn:He; cbn; rewrite He; repeat split.
  - intros n ds co.
    destruct (evaluate_loop_returns (fun _ _ => True) n ds co g)
      as (g'' & _ & Hrun & _ & Hphase); auto.
    exists g''. auto.
Qed.

Lemma evaluation_episode_phase_witness :
  let p := mkParameters (EnvironmentSteps 2) (EnvironmentSteps 3) (Some 1) None in
  let g := set_phase TEST (init p) in
  phase (evaluation_episode 5 g) = TRAIN.
Proof.
  intros p g.
  destruct (evaluation_episode_phase 5 g) as (Hmode & _).
  apply Hmode. discriminate.
Defined.

(** ** [latest_policy_id] is a local counter *)

Lemma refresh_policy_blind ds ds' i g :
  (attempt_load_policy ds' i = None <-> attempt_load_policy ds i = None) ->
  refresh_policy ds' i g = refresh_policy ds i g.
Proof.
  unfold refresh_policy. intros [H1 H2].
  destruct (attempt_load_policy ds' i), (attempt_load_policy ds i);
    try reflexivity.
  - specialize (H2 eq_refl). discriminate.
  - specialize (H1 eq_refl). discriminate.
Qed.

Lemma trainer_loop_counts_publishes co cond fuel i g :
  ends_with (fun x => latest_policy_id x - saves (events x)
                      = latest_policy_id g - saves (events g))
            (while cond (trainer_body co) fuel i g).
Proof.
  apply (while_rule
           (fun _ x => latest_policy_id x - saves (events x)
                       = latest_policy_id g - saves (events g))
           (ends_with (fun x => latest_policy_id x - saves (events x)
                                = latest_policy_id g - saves (events g))));
    try exact I; try reflexivity.
  - intros j s s' Hs _ Hb.
    destruct (trainer_body_continue co j s s' Hb)
      as (new & g1 & _ & Hf & _ & _ & Hcase).
    destruct Hf as (Hid & _ & _ & _ & Hsaves & _).
    destruct Hcase as [[_ ->] | [_ ->]]; cbn -[Z.add Z.sub]; lia.
  - intros j s o Hs _ Hb.
    destruct (trainer_body_stop co j s o Hb) as (gb & new & -> & Hf).
    destruct Hf as (Hid & _ & _ & _ & Hsaves & _). cbn [ends_with]. lia.
  - intros j s Hs _. exact Hs.
Qed.

Lemma trainer_counts_publishes n ds co g :
  ends_with (fun g' => latest_policy_id g' - latest_policy_id g
                       = saves (events g') - saves (events g))
            (trainer n ds co g).
Proof.
  assert (Hpro : forall s,
             latest_policy_id (setup_memory_backend (sync s)) = latest_policy_id s /\
             saves (events (setup_memory_backend (sync s))) = saves (events s)).
  { intros s. unfold setup_memory_backend. cbn.
    destruct (memory_backend_params (params s)); cbn; auto. }
  destruct (Hpro g) as [Hid Hsv].
  destruct (Z.ltb_spec 0 n) as [Hpos | Hle].
  - rewrite (trainer_unfold n ds co g Hpos). cbv zeta.
    match goal with
    | |- ends_with _ (match while ?c ?b ?f ?i ?s with _ => _ end) =>
        pose proof (trainer_loop_counts_publishes co c f i s) as Hloop;
        destruct (while c b f i s) as [g' | g' |]
    end; cbn [ends_with] in Hloop |- *; try exact I;
      cbn -[Z.add Z.sub setup_memory_backend sync] in Hloop |- *; lia.
  - unfold trainer. replace (0 <? n) with false by (symmetry; apply Z.ltb_ge; lia).
    cbn [ends_with]. lia.
Qed.

(** C9.  Each role keeps [latest_policy_id] as a counter of its own.  The
    actor and the evaluator return with it raised by the number of their
    successful [attempt_load_policy] calls, one for each, and with the
    agent's tag equal to it if it was so at the start; the trainer ends with
    it raised by the number of its [save_policy] calls, one for each.  What
    the store hands over on a load is never looked at: two stores that agree
    on when a load succeeds (and on the end-of-run signal) lead the actor and
    the evaluator to the same state.  Hence, for an actor and a trainer that
    start from the same identifier, the actor's tag equals the trainer's
    [latest_policy_id] exactly when the actor's successful loads are as many
    as the trainer's publishes. *)
Theorem local_policy_counters :
  forall (n : Z) (ds : RedisDataStore) (co : Collaborators) (g : MASTGraphManager),
    (exists g', actor n ds co g = Returned g' /\
                latest_policy_id g' - latest_policy_id g
                  = loads (events g') - loads (events g) /\
                (Agent.policy_id (agent g) = latest_policy_id g ->
                 Agent.policy_id (agent g') = latest_policy_id g')) /\
    (exists g', evaluate_loop n ds co g = Returned g' /\
                latest_policy_id g' - latest_policy_id g
                  = loads (events g') - loads (events g) /\
                (Agent.policy_id (agent g) = latest_policy_id g ->
                 Agent.policy_id (agent g') = latest_policy_id g')) /\
    ends_with (fun g' => latest_policy_id g' - latest_policy_id g
                         = saves (events g') - saves (events g))
              (trainer n ds co g) /\
    (forall ds',
        (forall i, end_of_policies ds' i = end_of_policies ds i) ->
        (forall i, attempt_load_policy ds' i = None <-> attempt_load_policy ds i = None) ->
        actor n ds' co g = actor n ds co g /\
        evaluate_loop n ds' co g = evaluate_loop n ds co g) /\
    (forall (m : Z) (ds2 : RedisDataStore) (co2 : Collaborators)
            (gt ga' gt' : MASTGraphManager),
        latest_policy_id g = latest_policy_id gt ->
        Agent.policy_id (agent g) = latest_policy_id g ->
        actor n ds co g = Returned ga' ->
        trainer m ds2 co2 gt = Returned gt' ->
        (Agent.policy_id (agent ga') = latest_policy_id gt' <->
         loads (events ga') - loads (events g) = saves (events gt') - saves (events gt))).
Proof.
  intros n ds co g.
  assert (Hactor : exists g', actor n ds co g = Returned g' /\
                latest_policy_id g' - latest_policy_id g
                  = loads (events g') - loads (events g) /\
                (Agent.policy_id (agent g) = latest_policy_id g ->
                 Agent.policy_id (agent g') = latest_policy_id g')).
  { destruct (actor_returns
                (fun _ s => latest_policy_id s - loads (events s)
                            = latest_policy_id g - loads (events g) /\
                            (Agent.policy_id (agent g) = latest_policy_id g ->
                             Agent.policy_id (agent s) = latest_policy_id s))
                n ds co g) as (g' & _ & Hrun & [Hcount Htag] & _).
    - intros i s s' [Hc Ht] Hb.
      pose proof (actor_body_continue ds co i s s' Hb) as H. cbv zeta in H.
      destruct H as (_ & _ & _ & Hl & Htag & _). split; [lia | auto].
    - intros i s p H. exact H.
    - cbn. split; [lia | auto].
    - cbn. split; [lia | auto].
    - exists g'. split; [exact Hrun|]. split; [lia | exact Htag]. }
  split; [exact Hactor|]. split; [|split; [apply trainer_counts_publishes|split]].
  - destruct (evaluate_loop_returns
                (fun _ s => latest_policy_id s - loads (events s)
                            = latest_policy_id g - loads (events g) /\
                            (Agent.policy_id (agent g) = latest_policy_id g ->
                             Agent.policy_id (agent s) = latest_policy_id s))
                n ds co g) as (g' & _ & Hrun & [Hcount Htag] & _).
    + intros i s s' [Hc Ht] Hb.
      destruct (evaluate_body_continue ds co i s s' Hb) as (_ & _ & _ & Hl & Htag & _).
      split; [lia | auto].
    + intros i s p H. exact H.
    + cbn. split; [lia | auto].
    + cbn. split; [lia | auto].
    + exists g'. split; [exact Hrun|]. split; [lia | exact Htag].
  - intros ds' Heop Hload. split.
    + unfold actor, phase_context. destruct (0 <? n); [|reflexivity].
      rewrite (while_ext _ (actor_body ds' co) (actor_body ds co)); [reflexivity|].
      intros i s. unfold actor_body. rewrite Heop.
      now rewrite (refresh_policy_blind ds ds' i s (Hload i)).
    + unfold evaluate_loop, phase_context. destruct (0 <? n); [|reflexivity].
      rewrite (while_ext _ (evaluate_body ds' co) (evaluate_body ds co)); [reflexivity|].
      intros i s. unfold evaluate_body. rewrite Heop.
      now rewrite (refresh_policy_blind ds ds' i s (Hload i)).
  - intros m ds2 co2 gt ga' gt' Hsame Htag0 Hrun Htrain.
    destruct Hactor as (g' & Hrun' & Hcount & Htag).
    rewrite Hrun in Hrun'. inversion Hrun'; subst g'.
    pose proof (trainer_counts_publishes m ds2 co2 gt) as Hpub.
    rewrite Htrain in Hpub. cbn [ends_with] in Hpub.
    rewrite (Htag Htag0). split; lia.
Qed.

Lemma local_policy_counters_witness :
  let ds := mkStore (fun _ => false)
                    (fun i => if (i =? 0)%nat then Some (mkPolicy 7 0) else None) in
  let co := mkCollaborators (fun _ => 1%positive) (fun _ => false) false in
  let p := mkParameters (EnvironmentSteps 2) (EnvironmentSteps 2) None
                        (Some [sample_episode 1 1 0 2]) in
  exists ga' gt',
    actor 3 ds co (init p) = Returned ga' /\
    trainer 1 ds co (init p) = Returned gt' /\
    (Agent.policy_id (agent ga') = latest_policy_id gt' <->
     loads (events ga') - 0 = saves (events gt') - 0).
Proof.
  intros ds co p.
  assert (Hactor : exists ga', actor 3 ds co (init p) = Returned ga').
  { eexists. vm_compute. reflexivity. }
  assert (Htrainer : exists gt', trainer 1 ds co (init p) = Returned gt').
  { eexists. vm_compute. reflexivity. }
  destruct Hactor as (ga' & Hactor). destruct Htrainer as (gt' & Htrainer).
  exists ga', gt'. split; [exact Hactor|]. split; [exact Htrainer|].
  destruct (local_policy_counters 3 ds co (init p)) as (_ & _ & _ & _ & Heq).
  exact (Heq 1 ds co (init p) ga' gt' eq_refl eq_refl Hactor Htrainer).
Defined.

(** * Further properties of the role loops *)

(** ** What a fetch takes off the subscription *)

Lemma consumed_nothing pid incoming g v :
  v = Some incoming ->
  consumed pid incoming 0 g (set_memory_backend v g).
Proof.
  intros ->. unfold consumed. cbn -[Z.add]. rewrite app_nil_r.
  repeat split; intros; try lia; try reflexivity; congruence.
Qed.

Lemma fetch_loop_consumes target :
  forall (incoming : list Episode.t) (g : MASTGraphManager) (steps : Z),
    match fetch_loop target incoming g steps with
    | Returned g' =>
        exists n,
          (n <= length incoming)%nat /\
          consumed (latest_policy_id g) incoming n g g' /\
          target <= steps
                    + total_length (on_policy_only (latest_policy_id g) (firstn n incoming)) /\
          (target <= steps -> n = 0%nat) /\
          (steps < target ->
           exists front last,
             on_policy_only (latest_policy_id g) (firstn n incoming) = front ++ [last] /\
             steps + total_length front < target)
    | Blocked g' =>
        consumed (latest_policy_id g) incoming (length incoming) g g' /\
        steps + total_length (on_policy_only (latest_policy_id g) incoming) < target
    | OutOfFuel => False
    end.
Proof.
  induction incoming as [|e rest IH]; intros g steps; cbn [fetch_loop];
    destruct (Z.ltb_spec steps target) as [Hlt | Hge].
  - split; [apply consumed_nothing; reflexivity | simpl; lia].
  - exists 0%nat. split; [lia|]. split; [apply consumed_nothing; reflexivity|].
    simpl. repeat split; try lia.
  - unfold fetch_step.
    destruct (Z.eqb_spec (Episode.policy_id e) (latest_policy_id g)) as [He | He].
    + specialize (IH (accept_episode e g) (steps + Episode.length e)).
      change (latest_policy_id (accept_episode e g)) with (latest_policy_id g) in IH.
      assert (Hkeep : forall l, on_policy_only (latest_policy_id g) (e :: l)
                                = e :: on_policy_only (latest_policy_id g) l).
      { intros l. unfold on_policy_only. simpl.
        rewrite <- He at 1. now rewrite Z.eqb_refl. }
      assert (Hcons : forall n g',
                 consumed (latest_policy_id g) rest n (accept_episode e g) g' ->
                 consumed (latest_policy_id g) (e :: rest) (S n) g g').
      { intros n g' (B1 & B2 & B3 & B4 & B5 & B6 & B7).
        unfold consumed. cbn [firstn skipn]. rewrite Hkeep.
        split; [exact B1|]. split; [rewrite B2; simpl; now rewrite <- app_assoc|].
        split; [rewrite B3; simpl; lia|].
        split; [rewrite B4; cbn [length Agent.current_episode agent accept_episode
                                  set_agent emit set_current_step_counter]; lia|].
        split; [exact B5|]. split; [discriminate|]. intros _.
        destruct (on_policy_only (latest_policy_id g) (firstn n rest)) eqn:Hk.
        - destruct (B6 eq_refl) as [Ha Hc]. rewrite Ha, Hc. split; reflexivity.
        - apply B7. discriminate. }
      destruct (fetch_loop target rest (accept_episode e g) (steps + Episode.length e))
        as [g' | g' |]; [| |exact IH].
      * destruct IH as (n & Hn & Hc & Hreach & Hzero & Hlast).
        exists (S n). split; [simpl; lia|]. split; [apply Hcons; exact Hc|].
        cbn [firstn]. rewrite Hkeep. split; [simpl; lia|]. split; [lia|].
        intros _. destruct (Z.lt_ge_cases (steps + Episode.length e) target) as [Hl | Hg].
        -- destruct (Hlast Hl) as (front & last & Hk & Hf).
           exists (e :: front), last. rewrite Hk. split; [reflexivity | simpl; lia].
        -- rewrite (Hzero Hg). exists [], e. split; [reflexivity | simpl; lia].
      * destruct IH as (Hc & Hshort). split; [apply (Hcons (length rest)); exact Hc|].
        rewrite Hkeep. simpl. lia.
    + specialize (IH (ignore_episode e g) steps).
      change (latest_policy_id (ignore_episode e g)) with (latest_policy_id g) in IH.
      assert (Hdrop : forall l, on_policy_only (latest_policy_id g) (e :: l)
                                = on_policy_only (latest_policy_id g) l).
      { intros l. unfold on_policy_only. simpl.
        apply Z.eqb_neq in He. now rewrite He. }
      assert (Hcons : forall n g',
                 consumed (latest_policy_id g) rest n (ignore_episode e g) g' ->
                 consumed (latest_policy_id g) (e :: rest) (S n) g g').
      { intros n g' H. unfold consumed in *. cbn [firstn skipn]. rewrite Hdrop.
        exact H. }
      destruct (fetch_loop target rest (ignore_episode e g) steps)
        as [g' | g' |]; [| |exact IH].
      * destruct IH as (n & Hn & Hc & Hreach & Hzero & Hlast).
        exists (S n). split; [simpl; lia|]. split; [apply Hcons; exact Hc|].
        cbn [firstn]. rewrite Hdrop. split; [exact Hreach|]. split; [lia|].
        intros _. exact (Hlast Hlt).
      * destruct IH as (Hc & Hshort). split; [apply (Hcons (length rest)); exact Hc|].
        rewrite Hdrop. exact Hshort.
  - exists 0%nat. split; [lia|]. split; [apply consumed_nothing; reflexivity|].
    simpl. repeat split; try lia.
Qed.

Lemma fetch_from_worker_consumes target g incoming :
  memory_backend g = Some incoming ->
  match fetch_from_worker target g with
  | Returned g' =>
      exists n,
        (n <= length incoming)%nat /\
        consumed (latest_policy_id g) incoming n g g' /\
        phase g' = phase g /\
        num_steps target
          <= total_length (on_policy_only (latest_policy_id g) (firstn n incoming)) /\
        (num_steps target <= 0 -> n = 0%nat) /\
        (0 < num_steps target ->
         exists front last,
           on_policy_only (latest_policy_id g) (firstn n incoming) = front ++ [last] /\
           total_length front < num_steps target)
  | Blocked g' =>
      consumed (latest_policy_id g) incoming (length incoming) g g' /\
      total_length (on_policy_only (latest_policy_id g) incoming) < num_steps target
  | OutOfFuel => False
  end.
Proof.
  intros Hbk. unfold fetch_from_worker, phase_context. rewrite Hbk.
  pose proof (fetch_loop_consumes (num_steps target) incoming (set_phase TRAIN g) 0) as H.
  change (latest_policy_id (set_phase TRAIN g)) with (latest_policy_id g) in H.
  destruct (fetch_loop (num_steps target) incoming (set_phase TRAIN g) 0)
    as [g' | g' |]; [| |exact H].
  - destruct H as (n & Hn & Hc & Hreach & Hzero & Hlast).
    exists n. split; [exact Hn|]. split; [exact Hc|]. split; [reflexivity|].
    split; [lia|]. split; [intros; apply Hzero; lia|].
    intros Hpos. destruct (Hlast Hpos) as (front & last & Hk & Hf).
    exists front, last. split; [exact Hk | lia].
  - destruct H as (Hc & Hshort). split; [exact Hc | lia].
Qed.

Lemma total_length_on_policy_nonneg pid (l : list Episode.t) :
  0 <= total_length (on_policy_only pid l).
Proof.
  unfold total_length, on_policy_only.
  induction l as [|x l IH]; simpl; [lia|].
  destruct (Episode.policy_id x =? pid); simpl; [|exact IH].
  assert (0 <= Episode.length x) by (unfold Episode.length; lia). lia.
Qed.

Lemma total_length_on_policy_firstn pid :
  forall (l : list Episode.t) (n : nat),
    total_length (on_policy_only pid (firstn n l))
    <= total_length (on_policy_only pid l).
Proof.
  induction l as [|e l IH]; intros [|n]; try (simpl; lia).
  - pose proof (total_length_on_policy_nonneg pid (e :: l)) as Hl.
    simpl firstn. simpl (on_policy_only pid []). simpl (total_length []). exact Hl.
  - specialize (IH n). unfold total_length, on_policy_only in *. simpl.
    destruct (Episode.policy_id e =? pid); simpl; [|exact IH].
    assert (0 <= Episode.length e) by (unfold Episode.length; lia). lia.
Qed.

(** X1.  A fetch takes a prefix of the subscription and keeps, in their
    order of arrival, exactly the episodes of that prefix tagged with the
    trainer's current policy: they are appended to the agent's memory, the
    total grows by their cumulative length and [current_episode] by their
    number; the other episodes of the prefix are gone from the subscription
    and stored nowhere.  Once an episode was kept, the environment-step
    counter equals the agent's total and the episode buffer is marked
    complete.  This holds whether the fetch returns or waits for ever. *)
Theorem fetch_consumes_prefix :
  forall (target : StepMethod) (g : MASTGraphManager) (incoming : list Episode.t),
    memory_backend g = Some incoming ->
    fetch_from_worker target g <> OutOfFuel /\
    ends_with
      (fun g' =>
         exists n,
           (n <= length incoming)%nat /\
           let kept := on_policy_only (latest_policy_id g) (firstn n incoming) in
           memory_backend g' = Some (skipn n incoming) /\
           Agent.memory (agent g') = Agent.memory (agent g) ++ kept /\
           Agent.total_steps_counter (agent g')
             = Agent.total_steps_counter (agent g) + total_length kept /\
           Agent.current_episode (agent g')
             = Agent.current_episode (agent g) + Z.of_nat (length kept) /\
           (kept <> [] ->
              environment_steps (current_step_counter g')
                = Agent.total_steps_counter (agent g') /\
              Agent.current_episode_buffer_is_complete (agent g') = true))
      (fetch_from_worker target g).
Proof.
  intros target g incoming Hbk.
  pose proof (fetch_from_worker_consumes target g incoming Hbk) as H.
  destruct (fetch_from_worker target g) as [g' | g' |]; [| |contradiction].
  - split; [discriminate|]. destruct H as (n & Hn & Hc & _).
    destruct Hc as (B1 & B2 & B3 & B4 & _ & _ & B7).
    exists n. cbv zeta. repeat split; try assumption; apply B7; assumption.
  - split; [discriminate|]. destruct H as (Hc & _).
    destruct Hc as (B1 & B2 & B3 & B4 & _ & _ & B7).
    exists (length incoming). cbv zeta.
    repeat split; try assumption; try lia; apply B7; assumption.
Qed.

Lemma fetch_consumes_prefix_witness :
  let incoming := [sample_episode 1 1 3 80; sample_episode 2 1 2 150;
                   sample_episode 1 2 3 140; sample_episode 1 3 3 60] in
  fetch_from_worker (EnvironmentSteps 200)
    (sample_trainer 3 0 0 200 1000 (Some incoming)) <> OutOfFuel.
Proof.
  intros incoming.
  apply (fetch_consumes_prefix (EnvironmentSteps 200)
           (sample_trainer 3 0 0 200 1000 (Some incoming)) incoming).
  reflexivity.
Defined.

(** X2.  A fetch with a positive target that returns has kept at least one
    episode, and it stopped at the first episode that brought the kept length
    to the target: the episodes kept before the last one fall short of the
    target, so the total overshoots the target by less than the length of
    the last episode kept. *)
Theorem fetch_overshoot_bounded :
  forall (target : StepMethod) (g g' : MASTGraphManager) (incoming : list Episode.t),
    memory_backend g = Some incoming ->
    0 < num_steps target ->
    fetch_from_worker target g = Returned g' ->
    exists front last,
      Agent.memory (agent g') = Agent.memory (agent g) ++ front ++ [last] /\
      total_length front < num_steps target <= total_length (front ++ [last]) /\
      Agent.total_steps_counter (agent g')
        = Agent.total_steps_counter (agent g) + total_length front + Episode.length last /\
      Agent.total_steps_counter (agent g') - Agent.total_steps_counter (agent g)
        - num_steps target < Episode.length last.
Proof.
  intros target g g' incoming Hbk Hpos Hrun.
  pose proof (fetch_from_worker_consumes target g incoming Hbk) as H.
  rewrite Hrun in H. destruct H as (n & _ & Hc & _ & Hreach & _ & Hlast).
  destruct (Hlast Hpos) as (front & last & Hk & Hshort).
  destruct Hc as (_ & B2 & B3 & _).
  rewrite Hk in B2, B3, Hreach. rewrite total_length_app in B3, Hreach.
  simpl in B3, Hreach.
  exists front, last. rewrite total_length_app. simpl.
  split; [exact B2|]. split; [lia|]. split; lia.
Qed.

Lemma fetch_overshoot_bounded_witness :
  let incoming := [sample_episode 1 1 3 80; sample_episode 2 1 2 150;
                   sample_episode 1 2 3 140; sample_episode 1 3 3 60] in
  let g := sample_trainer 3 0 0 200 1000 (Some incoming) in
  exists g' front last,
    fetch_from_worker (EnvironmentSteps 200) g = Returned g' /\
    Agent.memory (agent g') = Agent.memory (agent g) ++ front ++ [last] /\
    total_length front < 200.
Proof.
  intros incoming g.
  assert (Hrun : exists g', fetch_from_worker (EnvironmentSteps 200) g = Returned g').
  { eexists. vm_compute. reflexivity. }
  destruct Hrun as (g' & Hrun).
  destruct (fetch_overshoot_bounded (EnvironmentSteps 200) g g' incoming
              eq_refl eq_refl Hrun) as (front & last & Hmem & [Hshort _] & _).
  exists g', front, last. split; [exact Hrun|]. split; [exact Hmem | exact Hshort].
Defined.

(** X3.  With a memory backend, a fetch returns exactly when the episodes of
    the subscription tagged with the trainer's current policy add up to the
    target; otherwise it uses up the whole subscription and waits for ever. *)
Theorem fetch_returns_iff_enough :
  forall (target : StepMethod) (g : MASTGraphManager) (incoming : list Episode.t),
    memory_backend g = Some incoming ->
    let available := total_length (on_policy_only (latest_policy_id g) incoming) in
    ((exists g', fetch_from_worker target g = Returned g') <->
     num_steps target <= available) /\
    ((exists g', fetch_from_worker target g = Blocked g' /\ memory_backend g' = Some []) <->
     available < num_steps target).
Proof.
  intros target g incoming Hbk available. subst available.
  pose proof (fetch_from_worker_consumes target g incoming Hbk) as H.
  destruct (fetch_from_worker target g) as [g' | g' |]; [| |contradiction].
  - destruct H as (n & _ & _ & _ & Hreach & _).
    pose proof (total_length_on_policy_firstn (latest_policy_id g) incoming n) as Hm.
    split; split.
    + intros _. lia.
    + intros _. eauto.
    + intros (x & Hx & _). discriminate.
    + intros Hlt. lia.
  - destruct H as ((B1 & _) & Hshort). rewrite skipn_all in B1.
    split; split.
    + intros (x & Hx). discriminate.
    + intros Hle. lia.
    + intros _. exact Hshort.
    + intros _. exists g'. split; [reflexivity | exact B1].
Qed.

Lemma fetch_returns_iff_enough_witness :
  let incoming := [sample_episode 1 1 3 80; sample_episode 2 1 2 150] in
  let g := sample_trainer 3 0 0 200 1000 (Some incoming) in
  exists g', fetch_from_worker (EnvironmentSteps 200) g = Blocked g' /\
             memory_backend g' = Some [].
Proof.
  intros incoming g.
  destruct (fetch_returns_iff_enough (EnvironmentSteps 200) g incoming eq_refl)
    as [_ [_ Hblock]].
  apply Hblock. vm_compute. reflexivity.
Defined.

(** X4.  A fetch with a target of zero or less returns at once in the state
    it was called in, taking nothing off the subscription, whether or not a
    memory backend is present. *)
Theorem fetch_nonpositive_target :
  forall (target : StepMethod) (g : MASTGraphManager),
    num_steps target <= 0 ->
    fetch_from_worker target g = Returned g.
Proof.
  intros target g Hle. unfold fetch_from_worker, phase_context.
  destruct g as [f lp id c ph [incoming|] a p ev]; cbn [memory_backend]; [|reflexivity].
  destruct incoming as [|e rest]; cbn [fetch_loop];
    replace (0 <? num_steps target) with false by (symmetry; apply Z.ltb_ge; lia);
    reflexivity.
Qed.

Lemma fetch_nonpositive_target_witness :
  let g := sample_trainer 3 0 0 0 1000 (Some [sample_episode 1 1 3 80]) in
  fetch_from_worker (EnvironmentSteps 0) g = Returned g.
Proof.
  intros g. apply (fetch_nonpositive_target (EnvironmentSteps 0) g).
  vm_compute. discriminate.
Defined.

(** ** The trainer's run as a whole *)

Lemma total_length_nonneg (l : list Episode.t) : 0 <= total_length l.
Proof.
  induction l as [|e l IH]; simpl; [lia|].
  assert (0 <= Episode.length e) by (unfold Episode.length; lia). lia.
Qed.

Lemma fetch_loop_events target :
  forall (incoming : list Episode.t) (g : MASTGraphManager) (steps : Z),
    ends_with (fun g' => exists added,
                 events g' = added ++ events g /\ Forall fetch_event added)
              (fetch_loop target incoming g steps).
Proof.
  induction incoming as [|e rest IH]; intros g steps; cbn [fetch_loop];
    destruct (steps <? target); try (exists []; split; [reflexivity | constructor]).
  unfold fetch_step. destruct (Episode.policy_id e =? latest_policy_id g).
  - specialize (IH (accept_episode e g) (steps + Episode.length e)).
    destruct (fetch_loop target rest (accept_episode e g) (steps + Episode.length e));
      cbn [ends_with] in *; try exact I;
      destruct IH as (added & Hev & Hall);
      exists (added ++ [LogFetched
                          (Agent.total_steps_counter (agent g) + Episode.length e) e;
                        StoreEpisode e]);
      (split; [rewrite Hev, <- app_assoc; reflexivity|]);
      apply Forall_app; (split; [exact Hall | repeat constructor]).
  - specialize (IH (ignore_episode e g) steps).
    destruct (fetch_loop target rest (ignore_episode e g) steps);
      cbn [ends_with] in *; try exact I;
      destruct IH as (added & Hev & Hall);
      exists (added ++ [LogIgnored e (latest_policy_id g)]);
      (split; [rewrite Hev, <- app_assoc; reflexivity|]);
      apply Forall_app; (split; [exact Hall | repeat constructor]).
Qed.

Lemma fetch_from_worker_events target g :
  ends_with (fun g' => exists added,
               events g' = added ++ events g /\ Forall fetch_event added)
            (fetch_from_worker target g).
Proof.
  unfold fetch_from_worker, phase_context.
  destruct (memory_backend g) as [incoming|];
    [|exists []; split; [reflexivity | constructor]].
  pose proof (fetch_loop_events (num_steps target) incoming (set_phase TRAIN g) 0) as H.
  destruct (fetch_loop (num_steps target) incoming (set_phase TRAIN g) 0);
    cbn [ends_with] in *; exact H.
Qed.

Lemma saved_ids_fetch_events added l :
  Forall fetch_event added -> saved_ids (added ++ l) = saved_ids l.
Proof.
  induction 1 as [|ev added Hev _ IH]; [reflexivity|].
  destruct ev; simpl in Hev |- *; try contradiction; exact IH.
Qed.

(** What one whole iteration of the trainer does to the counters and to
    the trace. *)
Lemma trainer_body_step co i g g' :
  trainer_body co i g = Continue g' ->
  training_steps (current_step_counter g')
    = training_steps (current_step_counter g) + 1 /\
  trainings (events g') = trainings (events g) + 1 /\
  phase g' = phase g /\
  ((latest_policy_id g' = latest_policy_id g + 1 /\
    saved_ids (events g') = (latest_policy_id g + 1) :: saved_ids (events g) /\
    saves (events g') = saves (events g) + 1 /\
    0 <= checkpoints (events g') - checkpoints (events g) <= 1) \/
   (latest_policy_id g' = latest_policy_id g /\
    saved_ids (events g') = saved_ids (events g) /\
    saves (events g') = saves (events g) /\
    checkpoints (events g') = checkpoints (events g))).
Proof.
  intros Hbody.
  destruct (trainer_body_continue co i g g' Hbody)
    as (new & g1 & Hrun & Hf & Hph & _ & Hcase).
  pose proof (fetch_from_worker_events (num_consecutive_playing_steps (params g)) g) as Hev.
  rewrite Hrun in Hev. cbn [ends_with] in Hev. destruct Hev as (added & Hev & Hall).
  assert (Hids : saved_ids (events g1) = saved_ids (events g)).
  { rewrite Hev. apply saved_ids_fetch_events. exact Hall. }
  destruct Hf as (Hid & _ & _ & Hts & Hsv & Htr & Hck & _).
  destruct Hcase as [[_ ->] | [_ ->]]; cbn -[Z.add Z.sub].
  - rewrite Hts, Htr, Hph, Hid, Hids, Hsv, Hck.
    split; [reflexivity|]. split; [lia|]. split; [reflexivity|]. left.
    split; [reflexivity|]. split; [reflexivity|]. split; [lia|].
    destruct (checkpoint_due co i); lia.
  - rewrite Hts, Htr, Hph, Hid, Hids, Hsv, Hck.
    split; [reflexivity|]. split; [lia|]. split; [reflexivity|]. right.
    repeat split.
Qed.

(** An iteration of the trainer that does not come back is one whose fetch
    waits for ever; nothing but the fetch has happened in it. *)
Lemma trainer_body_blocked co i g o :
  trainer_body co i g = Stop o ->
  exists gb,
    o = Blocked gb /\
    training_steps (current_step_counter gb)
      = training_steps (current_step_counter g) /\
    trainings (events gb) = trainings (events g) /\
    latest_policy_id gb = latest_policy_id g /\
    saved_ids (events gb) = saved_ids (events g) /\
    saves (events gb) = saves (events g) /\
    checkpoints (events gb) = checkpoints (events g).
Proof.
  unfold trainer_body. intros Hbody.
  pose proof (fetch_from_worker_fetched (num_consecutive_playing_steps (params g)) g) as Hf.
  pose proof (fetch_from_worker_events (num_consecutive_playing_steps (params g)) g) as Hev.
  destruct (fetch_from_worker (num_consecutive_playing_steps (params g)) g)
    as [g1 | g1 |]; try contradiction.
  - destruct (publish_due (train g1)); discriminate.
  - inversion Hbody; subst. exists g1. split; [reflexivity|].
    destruct Hf as (new & (Hid & _ & _ & Hts & Hsv & Htr & Hck & _) & _).
    cbn [ends_with] in Hev. destruct Hev as (added & Hev & Hall).
    repeat split; try assumption.
    rewrite Hev. apply saved_ids_fetch_events. exact Hall.
Qed.

Lemma trainer_loop_budget co count_end :
  forall (fuel i : nat) (g : MASTGraphManager),
    count_end - training_steps (current_step_counter g) <= Z.of_nat fuel ->
    match while (fun s => counter_lt (current_step_counter s) (TrainingSteps count_end))
                (trainer_body co) fuel i g with
    | Returned g' =>
        training_steps (current_step_counter g')
          = Z.max (training_steps (current_step_counter g)) count_end /\
        trainings (events g') - trainings (events g)
          = training_steps (current_step_counter g')
            - training_steps (current_step_counter g) /\
        phase g' = phase g /\
        0 <= checkpoints (events g') - checkpoints (events g)
          <= saves (events g') - saves (events g) /\
        saves (events g') - saves (events g)
          <= trainings (events g') - trainings (events g)
    | Blocked g' =>
        0 <= trainings (events g') - trainings (events g)
          < count_end - training_steps (current_step_counter g) /\
        0 <= checkpoints (events g') - checkpoints (events g)
          <= saves (events g') - saves (events g) /\
        saves (events g') - saves (events g)
          <= trainings (events g') - trainings (events g)
    | OutOfFuel => False
    end.
Proof.
  induction fuel as [|fuel IH]; intros i g Hm; cbn [while counter_lt];
    destruct (Z.ltb_spec (training_steps (current_step_counter g)) count_end)
      as [Hlt | Hge]; try lia.
  - repeat split; lia.
  - destruct (trainer_body co i g) as [g1 | o] eqn:Hb.
    + destruct (trainer_body_step co i g g1 Hb) as (Hts & Htr & Hph & Hcase).
      specialize (IH (S i) g1 ltac:(lia)).
      destruct (while _ (trainer_body co) fuel (S i) g1) as [g' | g' |];
        [| |exact IH].
      * destruct IH as (I1 & I2 & I3 & I4 & I5).
        destruct Hcase as [(_ & _ & Hsv & Hck) | (_ & _ & Hsv & Hck)];
          repeat split; try lia; congruence.
      * destruct IH as (I1 & I2 & I3).
        destruct Hcase as [(_ & _ & Hsv & Hck) | (_ & _ & Hsv & Hck)];
          repeat split; lia.
    + destruct (trainer_body_blocked co i g o Hb)
        as (gb & -> & Hts & Htr & _ & _ & Hsv & Hck).
      repeat split; lia.
  - repeat split; lia.
Qed.

(** X5.  A trainer asked for [n] training steps that returns has called
    [train] exactly [n] times (not at all when [n] is zero or less), has
    counted as many training steps, and is back in the phase it was called
    in.  One that waits for ever on the subscription has trained fewer than
    [n] times.  Either way it has published at most once per training step
    and written at most one checkpoint per publish. *)
Theorem trainer_trains_budget :
  forall (n : Z) (ds : RedisDataStore) (co : Collaborators) (g : MASTGraphManager),
    match trainer n ds co g with
    | Returned g' =>
        trainings (events g') = trainings (events g) + Z.max 0 n /\
        training_steps (current_step_counter g')
          = training_steps (current_step_counter g) + Z.max 0 n /\
        phase g' = phase g /\
        0 <= checkpoints (events g') - checkpoints (events g)
          <= saves (events g') - saves (events g) /\
        saves (events g') - saves (events g) <= Z.max 0 n
    | Blocked g' =>
        trainings (events g) <= trainings (events g') < trainings (events g) + n /\
        0 <= checkpoints (events g') - checkpoints (events g)
          <= saves (events g') - saves (events g) /\
        saves (events g') - saves (events g)
          <= trainings (events g') - trainings (events g)
    | OutOfFuel => False
    end.
Proof.
  intros n ds co g.
  assert (Hpro : forall s,
             trainings (events (setup_memory_backend (sync s))) = trainings (events s) /\
             saves (events (setup_memory_backend (sync s))) = saves (events s) /\
             checkpoints (events (setup_memory_backend (sync s)))
               = checkpoints (events s) /\
             current_step_counter (setup_memory_backend (sync s))
               = current_step_counter s /\
             phase (setup_memory_backend (sync s)) = phase s).
  { intros s. unfold setup_memory_backend. cbn.
    destruct (memory_backend_params (params s)); cbn; auto. }
  destruct (Hpro g) as (P1 & P2 & P3 & P4 & P5).
  destruct (Z.ltb_spec 0 n) as [Hpos | Hle].
  - rewrite (trainer_unfold n ds co g Hpos). cbv zeta.
    match goal with
    | |- match (match while ?c ?b ?f ?i ?s with _ => _ end) with _ => _ end =>
        pose proof (trainer_loop_budget co
                      (training_steps (current_step_counter s) + n) f i s) as Hloop;
        destruct (while c b f i s) as [g' | g' |]
    end;
      cbn -[Z.add Z.sub Z.max setup_memory_backend sync] in Hloop |- *;
      rewrite ?P1, ?P2, ?P3, ?P4 in Hloop;
      specialize (Hloop ltac:(lia)); try exact Hloop.
    + destruct Hloop as (L1 & L2 & _ & L4 & L5).
      split; [lia|]. split; [lia|]. split; [exact P5|]. split; lia.
    + destruct Hloop as (L1 & L2 & L3). repeat split; lia.
  - unfold trainer. replace (0 <? n) with false by (symmetry; apply Z.ltb_ge; lia).
    rewrite P1, P2, P3, P4, P5. repeat split; lia.
Qed.

Lemma saved_ids_trainer_prologue g :
  saved_ids (events (trainer_specific_logging_updates
                       (reset_internal_state
                          (set_phase TRAIN (setup_memory_backend (sync g))))))
  = saved_ids (events g) /\
  latest_policy_id (trainer_specific_logging_updates
                      (reset_internal_state
                         (set_phase TRAIN (setup_memory_backend (sync g)))))
  = latest_policy_id g.
Proof.
  unfold setup_memory_backend. cbn.
  destruct (memory_backend_params (params g)); cbn; auto.
Qed.

(** X6.  The identifiers the trainer publishes are consecutive: when it
    ends, whether it returned or waits on the subscription, the [k] calls of
    [save_policy] it made carried, in order, the identifiers that follow the
    one it started with, without gap or repeat, and [latest_policy_id] is the
    last of them. *)
Theorem published_ids_consecutive :
  forall (n : Z) (ds : RedisDataStore) (co : Collaborators) (g : MASTGraphManager),
    ends_with
      (fun g' =>
         exists k : nat,
           latest_policy_id g' = latest_policy_id g + Z.of_nat k /\
           saved_ids (events g') = countdown (latest_policy_id g) k ++ saved_ids (events g))
      (trainer n ds co g).
Proof.
  intros n ds co g.
  destruct (saved_ids_trainer_prologue g) as [Hids Hid].
  destruct (Z.ltb_spec 0 n) as [Hpos | Hle].
  - rewrite (trainer_unfold n ds co g Hpos). cbv zeta.
    match goal with
    | |- ends_with _ (match while ?c ?b ?f ?i ?s with _ => _ end) =>
        pose proof (while_rule
                      (fun _ x => exists k : nat,
                           latest_policy_id x = latest_policy_id g + Z.of_nat k /\
                           saved_ids (events x)
                           = countdown (latest_policy_id g) k ++ saved_ids (events g))
                      (ends_with
                         (fun x => exists k : nat,
                              latest_policy_id x = latest_policy_id g + Z.of_nat k /\
                              saved_ids (events x)
                              = countdown (latest_policy_id g) k ++ saved_ids (events g)))
                      c b) as Hrule;
        specialize (fun H1 H2 H3 => Hrule H1 H2 H3 I f i s)
    end.
    match type of Hrule with
    | _ -> _ -> _ -> _ -> ends_with _ ?w =>
        assert (Hloop : ends_with
                  (fun x => exists k : nat,
                       latest_policy_id x = latest_policy_id g + Z.of_nat k /\
                       saved_ids (events x)
                       = countdown (latest_policy_id g) k ++ saved_ids (events g)) w)
    end.
    { apply Hrule.
      - intros j s s' (k & Hk & Hs) _ Hb.
        destruct (trainer_body_step co j s s' Hb)
          as (_ & _ & _ & [(Hl & Hi & _) | (Hl & Hi & _)]).
        + exists (S k). split; [lia|]. rewrite Hi, Hs. cbn [countdown app].
          f_equal. lia.
        + exists k. split; [lia|]. rewrite Hi. exact Hs.
      - intros j s o (k & Hk & Hs) _ Hb.
        destruct (trainer_body_blocked co j s o Hb)
          as (gb & -> & _ & _ & Hl & Hi & _).
        exists k. split; [lia|]. rewrite Hi. exact Hs.
      - intros j s Hs _. exact Hs.
      - exists 0%nat. rewrite Hids, Hid. split; [lia | reflexivity]. }
    match goal with
    | |- ends_with _ (match ?w with _ => _ end) => destruct w
    end; cbn [ends_with] in Hloop |- *; try exact I; exact Hloop.
  - unfold trainer. replace (0 <? n) with false by (symmetry; apply Z.ltb_ge; lia).
    exists 0%nat. unfold setup_memory_backend. cbn.
    destruct (memory_backend_params (params g)); cbn; split; try lia; reflexivity.
Qed.

(** X7.  Started with the environment-step counter equal to the agent's
    total and with [last_publish_step] not beyond it, the trainer ends,
    whether it returned or waits on the subscription, with both still so:
    the total and [last_publish_step] have not gone down, and every publish
    moved [last_publish_step] forward by at least the threshold, so that [k]
    publishes account for at least [k] times the threshold of fetched
    steps. *)
Theorem publishes_cost_threshold :
  forall (n : Z) (ds : RedisDataStore) (co : Collaborators) (g : MASTGraphManager),
    environment_steps (current_step_counter g) = Agent.total_steps_counter (agent g) ->
    last_publish_step g <= Agent.total_steps_counter (agent g) ->
    ends_with
      (fun g' =>
         let threshold :=
           num_steps (mast_trainer_publish_policy_every_num_fetched_steps (params g)) in
         environment_steps (current_step_counter g')
           = Agent.total_steps_counter (agent g') /\
         Agent.total_steps_counter (agent g) <= Agent.total_steps_counter (agent g') /\
         last_publish_step g <= last_publish_step g'
           <= Agent.total_steps_counter (agent g') /\
         threshold * (saves (events g') - saves (events g))
           <= last_publish_step g' - last_publish_step g)
      (trainer n ds co g).
Proof.
  intros n ds co g Hsync Hmark.
  set (Inv := fun x : MASTGraphManager =>
         params x = params g /\
         environment_steps (current_step_counter x)
           = Agent.total_steps_counter (agent x) /\
         Agent.total_steps_counter (agent g) <= Agent.total_steps_counter (agent x) /\
         last_publish_step g <= last_publish_step x
           <= Agent.total_steps_counter (agent x) /\
         num_steps (mast_trainer_publish_policy_every_num_fetched_steps (params g))
           * (saves (events x) - saves (events g))
           <= last_publish_step x - last_publish_step g).
  assert (Hpro : forall p, Inv (set_phase p (setup_memory_backend (sync g)))).
  { intros p. unfold Inv, setup_memory_backend. cbn -[Z.mul Z.sub].
    destruct (memory_backend_params (params g)); cbn -[Z.mul Z.sub];
      repeat split; try assumption; lia. }
  assert (Hloop : forall cond fuel i s, Inv s ->
            ends_with Inv (while cond (trainer_body co) fuel i s)).
  { intros cond fuel i s Hs.
    apply (while_rule (fun _ x => Inv x) (ends_with Inv)); try exact I; try exact Hs.
    - intros j x x' (Hp & Hc & Ht & Hl & Hk) _ Hb.
      destruct (trainer_body_continue co j x x' Hb)
        as (new & g1 & _ & Hf & _ & _ & Hcase).
      destruct Hf as (_ & Hpub & Hpar & _ & Hsv & _ & _ & _ & _ & _ & Htot & Hcons).
      specialize (Hcons Hc). pose proof (total_length_nonneg new) as Hnn.
      destruct Hcase as [[Hdue ->] | [_ ->]]; unfold Inv; cbn -[Z.mul Z.sub Z.add].
      + apply publish_due_spec in Hdue. cbn -[Z.mul Z.sub Z.add] in Hdue.
        rewrite Hpar, Hp in Hdue.
        split; [congruence|]. split; [exact Hcons|]. split; [lia|]. split; [lia|].
        rewrite Hsv, Hcons. lia.
      + split; [congruence|]. split; [exact Hcons|]. split; [lia|]. split; [lia|].
        rewrite Hsv, Hpub. exact Hk.
    - intros j x o (Hp & Hc & Ht & Hl & Hk) _ Hb.
      destruct (trainer_body_stop co j x o Hb) as (gb & new & -> & Hf).
      destruct Hf as (_ & Hpub & Hpar & _ & Hsv & _ & _ & _ & _ & _ & Htot & Hcons).
      specialize (Hcons Hc). pose proof (total_length_nonneg new) as Hnn.
      unfold Inv. cbn [ends_with].
      split; [congruence|]. split; [exact Hcons|]. split; [lia|]. split; [lia|].
      rewrite Hsv, Hpub. exact Hk.
    - intros j x Hx _. exact Hx. }
  assert (Hdone : forall x, Inv x -> forall p,
            let threshold :=
              num_steps (mast_trainer_publish_policy_every_num_fetched_steps (params g)) in
            environment_steps (current_step_counter (set_phase p x))
              = Agent.total_steps_counter (agent (set_phase p x)) /\
            Agent.total_steps_counter (agent g)
              <= Agent.total_steps_counter (agent (set_phase p x)) /\
            last_publish_step g <= last_publish_step (set_phase p x)
              <= Agent.total_steps_counter (agent (set_phase p x)) /\
            threshold * (saves (events (set_phase p x)) - saves (events g))
              <= last_publish_step (set_phase p x) - last_publish_step g).
  { intros x (_ & H1 & H2 & H3 & H4) p. cbn -[Z.mul Z.sub]. auto. }
  destruct (Z.ltb_spec 0 n) as [Hpos | Hle].
  - rewrite (trainer_unfold n ds co g Hpos). cbv zeta.
    match goal with
    | |- ends_with _ (match while ?c ?b ?f ?i ?s with _ => _ end) =>
        pose proof (Hloop c f i s) as Hrun;
        destruct (while c b f i s) as [g' | g' |]
    end; cbn [ends_with] in Hrun |- *; try exact I.
    + apply (Hdone g'). apply Hrun. exact (Hpro TRAIN).
    + assert (Hg' : Inv g') by (apply Hrun; exact (Hpro TRAIN)).
      pose proof (Hdone g' Hg' (phase g')) as Hd.
      cbn -[Z.mul Z.sub] in Hd |- *. exact Hd.
  - unfold trainer. replace (0 <? n) with false by (symmetry; apply Z.ltb_ge; lia).
    cbn [ends_with].
    pose proof (Hdone _ (Hpro (phase g)) (phase g)) as Hd.
    unfold setup_memory_backend in *.
    destruct (memory_backend_params (params (sync g))); cbn -[Z.mul Z.sub] in Hd |- *;
      exact Hd.
Qed.

Lemma publishes_cost_threshold_witness :
  let fresh := [sample_episode 1 1 0 2; sample_episode 1 2 0 2;
                sample_episode 1 3 1 2; sample_episode 1 4 1 2] in
  let p := mkParameters (EnvironmentSteps 2) (EnvironmentSteps 3) None (Some fresh) in
  let ds := mkStore (fun _ => false) (fun _ => None) in
  let co := mkCollaborators (fun _ => 1%positive) (fun _ => false) false in
  exists g', trainer 4 ds co (init p) = Returned g' /\
             3 * (saves (events g') - 0) <= last_publish_step g' - 0.
Proof.
  intros fresh p ds co.
  assert (Hrun : exists g', trainer 4 ds co (init p) = Returned g').
  { eexists. vm_compute. reflexivity. }
  destruct Hrun as (g' & Hrun). exists g'. split; [exact Hrun|].
  pose proof (publishes_cost_threshold 4 ds co (init p) eq_refl) as H.
  rewrite Hrun in H. cbn [ends_with] in H.
  destruct H as (_ & _ & _ & H); [vm_compute; discriminate | exact H].
Defined.

(** X8.  A trainer for which no memory backend is configured never waits
    and never fetches: it returns after training the requested number of
    times on the experience it already had, its memory and its total
    unchanged.  If the steps counted since the last publish were short of
    the threshold when it started, it does not publish either. *)
Theorem trainer_without_memory_backend :
  forall (n : Z) (ds : RedisDataStore) (co : Collaborators) (g : MASTGraphManager),
    memory_backend g = None ->
    memory_backend_params (params g) = None ->
    exists g',
      trainer n ds co g = Returned g' /\
      Agent.memory (agent g') = Agent.memory (agent g) /\
      Agent.total_steps_counter (agent g') = Agent.total_steps_counter (agent g) /\
      trainings (events g') = trainings (events g) + Z.max 0 n /\
      (Agent.total_steps_counter (agent g) - last_publish_step g
       < num_steps (mast_trainer_publish_policy_every_num_fetched_steps (params g)) ->
       latest_policy_id g' = latest_policy_id g /\
       saves (events g') = saves (events g)).
Proof.
  intros n ds co g Hbk Hcfg.
  set (Inv := fun x : MASTGraphManager =>
         memory_backend x = None /\ params x = params g /\
         Agent.memory (agent x) = Agent.memory (agent g) /\
         Agent.total_steps_counter (agent x) = Agent.total_steps_counter (agent g) /\
         (Agent.total_steps_counter (agent g) - last_publish_step g
          < num_steps (mast_trainer_publish_policy_every_num_fetched_steps (params g)) ->
          last_publish_step x = last_publish_step g /\
          latest_policy_id x = latest_policy_id g /\
          saves (events x) = saves (events g))).
  assert (Hloop : forall cond fuel i s, Inv s ->
            match while cond (trainer_body co) fuel i s with
            | Returned x => Inv x
            | Blocked _ => False
            | OutOfFuel => True
            end).
  { intros cond fuel i s Hs.
    apply (while_rule (fun _ x => Inv x)
             (fun o => match o with
                       | Returned x => Inv x
                       | Blocked _ => False
                       | OutOfFuel => True
                       end)); try exact I; try exact Hs.
    - intros j x x' (Hb & Hp & Hm & Ht & Hq) _ Hbody.
      unfold trainer_body, fetch_from_worker in Hbody. rewrite Hb in Hbody.
      destruct (publish_due (train x)) eqn:Hdue; inversion Hbody; subst x'; clear Hbody;
        unfold Inv; cbn -[Z.sub Z.add]; repeat split; try assumption;
        try (apply Hq; assumption).
      all: exfalso; apply publish_due_spec in Hdue; cbn -[Z.sub] in Hdue;
        destruct (Hq H) as (Hl & _); rewrite Hp, Ht, Hl in Hdue; lia.
    - intros j x o (Hb & _) _ Hbody.
      unfold trainer_body, fetch_from_worker in Hbody. rewrite Hb in Hbody.
      destruct (publish_due (train x)); discriminate.
    - intros j x Hx _. exact Hx. }
  assert (Hpro : forall p, Inv (set_phase p (setup_memory_backend (sync g)))).
  { intros p. unfold Inv, setup_memory_backend. cbn. rewrite Hcfg. cbn.
    repeat split; auto. }
  assert (Hs0 : setup_memory_backend (sync g) = sync g).
  { unfold setup_memory_backend. change (params (sync g)) with (params g).
    now rewrite Hcfg. }
  destruct (Z.ltb_spec 0 n) as [Hpos | Hle].
  - rewrite (trainer_unfold n ds co g Hpos). cbv zeta. rewrite Hs0.
    match goal with
    | |- exists _, match while ?c ?b ?f ?i ?s with _ => _ end = _ /\ _ =>
        pose proof (Hloop c f i s) as Hrun;
        pose proof (trainer_loop_budget co
                      (training_steps (current_step_counter s) + n) f i s) as Hbud;
        destruct (while c b f i s) as [g' | g' |]
    end.
    + exists (set_phase (phase (sync g)) g').
      split; [reflexivity|].
      destruct Hrun as (_ & _ & Hm & Ht & Hq).
      { pose proof (Hpro TRAIN) as Hp. rewrite Hs0 in Hp.
        destruct Hp as (A & B & C & D & E).
        unfold Inv. cbn. repeat split; try assumption; apply E; assumption. }
      cbn -[Z.add Z.sub Z.max]. split; [exact Hm|]. split; [exact Ht|].
      split.
      * destruct Hbud as (L1 & L2 & _); [cbn -[Z.add Z.sub]; lia|].
        cbn -[Z.add Z.sub Z.max] in L1, L2. lia.
      * intros Hshort. destruct (Hq Hshort) as (_ & Hl & Hs). auto.
    + exfalso. apply Hrun.
      pose proof (Hpro TRAIN) as Hp. rewrite Hs0 in Hp.
      destruct Hp as (A & B & C & D & E).
      unfold Inv. cbn. repeat split; try assumption; apply E; assumption.
    + exfalso. apply Hbud. cbn -[Z.add Z.sub]. lia.
  - unfold trainer. replace (0 <? n) with false by (symmetry; apply Z.ltb_ge; lia).
    rewrite Hs0. eexists. split; [reflexivity|].
    cbn -[Z.add Z.max]. repeat split; lia.
Qed.

Lemma trainer_without_memory_backend_witness :
  let p := mkParameters (EnvironmentSteps 2) (EnvironmentSteps 3) None None in
  let ds := mkStore (fun _ => false) (fun _ => None) in
  let co := mkCollaborators (fun _ => 1%positive) (fun _ => false) false in
  exists g', trainer 5 ds co (init p) = Returned g' /\
             Agent.memory (agent g') = [] /\
             Agent.total_steps_counter (agent g') = 0 /\
             trainings (events g') = 0 + Z.max 0 5.
Proof.
  intros p ds co.
  destruct (trainer_without_memory_backend 5 ds co (init p) eq_refl eq_refl)
    as (g' & Hrun & Hm & Ht & Htr & _).
  exists g'. repeat split; assumption.
Defined.

(** ** The actor's and the evaluator's runs as a whole *)

Lemma refresh_policy_events ds i g :
  events (refresh_policy ds i g)
  = match attempt_load_policy ds i with
    | Some _ => [LogLoaded (latest_policy_id g + 1);
                 AttemptLoadPolicy (environment_steps (current_step_counter g)) true]
    | None => [AttemptLoadPolicy (environment_steps (current_step_counter g)) false]
    end ++ events g.
Proof. unfold refresh_policy. destruct (attempt_load_policy ds i); reflexivity. Qed.

(** The agent's tag after a refresh attempt: untouched, or one more than
    the counter was. *)
Lemma refresh_policy_tag ds i g :
  (Agent.policy_id (agent (refresh_policy ds i g)) = Agent.policy_id (agent g) /\
   latest_policy_id (refresh_policy ds i g) = latest_policy_id g) \/
  (Agent.policy_id (agent (refresh_policy ds i g)) = latest_policy_id g + 1 /\
   latest_policy_id (refresh_policy ds i g) = latest_policy_id g + 1).
Proof. unfold refresh_policy. destruct (attempt_load_policy ds i); cbn; auto. Qed.

(** An iteration of the actor that acts: with or without a refresh attempt
    before the call of [act]. *)
Lemma actor_body_cases ds co i g g' :
  actor_body ds co i g = Continue g' ->
  g' = act (EnvironmentSteps 1) (steps_taken co i) g \/
  g' = act (EnvironmentSteps 1) (steps_taken co i) (refresh_policy ds i g).
Proof.
  unfold actor_body. destruct (end_of_policies ds i); [discriminate|].
  destruct (environment_steps (current_step_counter g) mod 200 =? 0);
    intros H; inversion H; auto.
Qed.

Lemma evaluate_body_events ds co i g g' :
  evaluate_body ds co i g = Continue g' ->
  exists during,
    events g' = Sync :: Act (EnvironmentEpisodes 1)
                            (Agent.policy_id (agent (refresh_policy ds i g)))
                            (Z.pos (steps_taken co i)) during
                     :: events (refresh_policy ds i g) /\
    (evaluate_only (params g) <> None -> during = TEST /\ phase g' = TRAIN) /\
    (evaluate_only (params g) = None -> during = phase g /\ phase g' = phase g).
Proof.
  unfold evaluate_body. destruct (end_of_policies ds i); [discriminate|].
  intros H; inversion H; subst; clear H.
  pose proof (refresh_policy_spec ds i g) as Hr. cbv zeta in Hr.
  destruct Hr as (_ & _ & _ & _ & _ & Hph & Hpar & _).
  unfold evaluation_episode. rewrite Hpar.
  destruct (evaluate_only (params g)) eqn:He; cbn; rewrite ?Hpar, ?He; cbn.
  - exists TEST. split; [reflexivity|]. split; [auto | congruence].
  - exists (phase (refresh_policy ds i g)). split; [reflexivity|].
    split; [congruence | auto].
Qed.

(** X9.  The actor always returns, and within its budget: it calls [act] at
    most [n] times (never, when [n] is zero or less), and the environment
    steps it went through are at least as many as its calls of [act].  If
    the end-of-run signal is never set, it only returns once it went through
    at least [n] steps; if every call of [act] consumes one step, the steps
    it went through are exactly its calls of [act]. *)
Theorem actor_respects_budget :
  forall (n : Z) (ds : RedisDataStore) (co : Collaborators) (g : MASTGraphManager),
    exists g',
      actor n ds co g = Returned g' /\
      let done := acts (events g') - acts (events g) in
      let walked := environment_steps (current_step_counter g')
                    - environment_steps (current_step_counter g) in
      0 <= done <= Z.max 0 n /\
      done <= walked /\
      ((forall i, end_of_policies ds i = false) -> Z.max 0 n <= walked) /\
      ((forall i, steps_taken co i = 1%positive) -> walked = done).
Proof.
  intros n ds co g.
  destruct (Z.ltb_spec 0 n) as [Hpos | Hle].
  - rewrite (actor_unfold n ds co g Hpos).
    set (c0 := environment_steps (current_step_counter g)).
    set (a0 := acts (events g)).
    set (Inv := fun s : MASTGraphManager =>
           0 <= acts (events s) - a0 <= n /\
           acts (events s) - a0 <= environment_steps (current_step_counter s) - c0 /\
           ((forall i, steps_taken co i = 1%positive) ->
            environment_steps (current_step_counter s) - c0 = acts (events s) - a0)).
    destruct (while_total (fun _ s => Inv s)
                (fun s => Inv s /\
                   (c0 + n <= environment_steps (current_step_counter s) \/
                    exists j, end_of_policies ds j = true))
                (fun s => c0 + n - environment_steps (current_step_counter s))
                (fun s => counter_lt (current_step_counter s) (EnvironmentSteps (c0 + n)))
                (actor_body ds co))
      with (fuel := Z.to_nat n) (i := 0%nat)
           (g := reset_internal_state (set_phase TRAIN (sync g)))
      as (g' & Hrun & (H1 & H2 & H3) & Hend).
    + intros i s s' (I1 & I2 & I3) Hc Hb.
      cbn [counter_lt] in Hc. apply Z.ltb_lt in Hc.
      pose proof (actor_body_continue ds co i s s' Hb) as Hk. cbv zeta in Hk.
      destruct Hk as (_ & Hsteps & Hacts & _).
      split; [|lia]. unfold Inv. rewrite Hsteps, Hacts.
      split; [lia|]. split; [lia|].
      intros Hone. specialize (I3 Hone). rewrite Hone. lia.
    + intros i s o Hs _ Hb. destruct (actor_body_stop ds co i s o Hb) as [-> Heop].
      exists s. split; [reflexivity|]. split; [exact Hs | right; eauto].
    + intros i s Hs Hc. split; [exact Hs|]. left.
      cbn [counter_lt] in Hc. apply Z.ltb_ge in Hc. exact Hc.
    + intros s Hc. cbn [counter_lt] in Hc. apply Z.ltb_lt in Hc. lia.
    + unfold Inv. subst a0 c0. cbn -[Z.sub]. repeat split; lia.
    + subst c0. cbn -[Z.sub Z.add]. lia.
    + rewrite Hrun. exists (set_phase (phase g) g'). split; [reflexivity|].
      cbn -[Z.sub Z.max]. fold a0 c0.
      split; [lia|]. split; [lia|]. split; [|exact H3].
      intros Hnever. destruct Hend as [Hreach | (j & Hj)]; [lia|].
      rewrite Hnever in Hj. discriminate.
  - unfold actor. replace (0 <? n) with false by (symmetry; apply Z.ltb_ge; lia).
    exists (sync g). split; [reflexivity|]. cbn -[Z.sub Z.max]. repeat split; lia.
Qed.

Lemma attempts_refresh_policy ds i g :
  attempts (events (refresh_policy ds i g)) = attempts (events g) + 1.
Proof.
  unfold attempts. rewrite refresh_policy_events.
  destruct (attempt_load_policy ds i); cbn [app attempt_steps length]; lia.
Qed.

(** X10.  The evaluator attempts a policy refresh in every iteration that
    runs an episode: when its loop returns, it has made exactly as many
    calls of [attempt_load_policy] as of [act].  The actor, which only
    attempts at multiples of 200 steps, has made at most as many. *)
Theorem evaluator_refreshes_every_iteration :
  forall (n : Z) (ds : RedisDataStore) (co : Collaborators) (g : MASTGraphManager),
    (exists g', evaluate_loop n ds co g = Returned g' /\
                attempts (events g') - attempts (events g)
                = acts (events g') - acts (events g)) /\
    (exists g', actor n ds co g = Returned g' /\
                0 <= attempts (events g') - attempts (events g)
                  <= acts (events g') - acts (events g)).
Proof.
  intros n ds co g. split.
  - destruct (evaluate_loop_returns
                (fun _ s => attempts (events s) - attempts (events g)
                            = acts (events s) - acts (events g))
                n ds co g) as (g' & _ & Hrun & Hinv & _).
    + intros i s s' Hs Hb.
      destruct (evaluate_body_events ds co i s s' Hb) as (during & Hev & _).
      pose proof (attempts_refresh_policy ds i s) as Hatt.
      pose proof (refresh_policy_spec ds i s) as Hr. cbv zeta in Hr.
      destruct Hr as (_ & _ & Hacts & _).
      rewrite Hev. unfold attempts in *. cbn [attempt_steps acts]. lia.
    + intros i s p H. exact H.
    + unfold attempts. cbn -[Z.sub Z.of_nat]. lia.
    + unfold attempts. cbn -[Z.sub Z.of_nat]. lia.
    + exists g'. split; [exact Hrun | exact Hinv].
  - destruct (actor_returns
                (fun _ s => 0 <= attempts (events s) - attempts (events g)
                            <= acts (events s) - acts (events g))
                n ds co g) as (g' & _ & Hrun & Hinv & _).
    + intros i s s' Hs Hb.
      pose proof (attempts_refresh_policy ds i s) as Hatt.
      pose proof (refresh_policy_spec ds i s) as Hr. cbv zeta in Hr.
      destruct Hr as (_ & _ & Hacts & _).
      destruct (actor_body_cases ds co i s s' Hb) as [-> | ->];
        unfold attempts in *; cbn [act events emit set_current_step_counter
                                    attempt_steps acts]; lia.
    + intros i s p H. exact H.
    + unfold attempts. cbn -[Z.sub Z.of_nat]. lia.
    + unfold attempts. cbn -[Z.sub Z.of_nat]. lia.
    + exists g'. split; [exact Hrun | exact Hinv].
Qed.

(** X11.  [evaluate] always returns, whatever the budget and the signal,
    and what it returns is the answer of [should_stop]; [flush_finished] is
    called once, after the loop, when the answer is true, and not at all
    when it is false.  The phase in which it was called is back. *)
Theorem evaluate_reports_should_stop :
  forall (n : Z) (ds : RedisDataStore) (co : Collaborators) (g : MASTGraphManager),
    exists g',
      evaluate n ds co g = (Returned g', should_stop co) /\
      phase g' = phase g /\
      flushes (events g') - flushes (events g) = (if should_stop co then 1 else 0) /\
      (should_stop co = true -> exists older, events g' = FlushFinished :: older).
Proof.
  intros n ds co g.
  destruct (evaluate_loop_returns
              (fun _ s => flushes (events s) = flushes (events g))
              n ds co g) as (gl & _ & Hrun & Hinv & Hph).
  - intros i s s' Hs Hb.
    destruct (evaluate_body_events ds co i s s' Hb) as (during & Hev & _).
    rewrite Hev, refresh_policy_events.
    destruct (attempt_load_policy ds i); cbn; exact Hs.
  - intros i s p H. exact H.
  - reflexivity.
  - reflexivity.
  - unfold evaluate. rewrite Hrun. destruct (should_stop co).
    + eexists. split; [reflexivity|]. cbn -[Z.sub Z.add].
      split; [exact Hph|]. split; [lia|]. intros _. eexists. reflexivity.
    + exists gl. split; [reflexivity|]. split; [exact Hph|]. split; [lia|].
      discriminate.
Qed.

(** X12.  Every call of [act] made by the actor runs in phase [TRAIN], and
    every call of [act] made by the evaluator runs in phase [TEST], in
    evaluate-only mode or not and whatever the phase the role was called
    in. *)
Theorem acts_run_in_role_phase :
  forall (n : Z) (ds : RedisDataStore) (co : Collaborators) (g : MASTGraphManager),
    (exists g' k, actor n ds co g = Returned g' /\
                  act_phases (events g') = repeat TRAIN k ++ act_phases (events g)) /\
    (exists g' k, evaluate_loop n ds co g = Returned g' /\
                  act_phases (events g') = repeat TEST k ++ act_phases (events g)).
Proof.
  intros n ds co g. split.
  - destruct (Z.ltb_spec 0 n) as [Hpos | Hle].
    + rewrite (actor_unfold n ds co g Hpos).
      destruct (polling_loop_returns
                  (fun k s => phase s = TRAIN /\
                     act_phases (events s) = repeat TRAIN k ++ act_phases (events g))
                  ds co (actor_body ds co)
                  (environment_steps (current_step_counter g) + n))
        with (fuel := Z.to_nat n) (i := 0%nat)
             (g := reset_internal_state (set_phase TRAIN (sync g)))
        as (g' & k & Hrun & [_ Hk] & _).
      * intros i s s' Hb. pose proof (actor_body_continue ds co i s s' Hb) as Hc.
        cbv zeta in Hc. tauto.
      * apply actor_body_stop.
      * intros i s s' [Hph Hs] Hb.
        pose proof (refresh_policy_spec ds i s) as Hr. cbv zeta in Hr.
        destruct Hr as (_ & _ & _ & _ & _ & Hrph & _).
        destruct (actor_body_cases ds co i s s' Hb) as [-> | ->];
          cbn [act events emit set_current_step_counter act_phases phase repeat app].
        -- rewrite Hph, Hs. split; reflexivity.
        -- rewrite Hrph, Hph, refresh_policy_events.
           split; [reflexivity|]. f_equal.
           destruct (attempt_load_policy ds i); cbn; exact Hs.
      * split; reflexivity.
      * cbn -[Z.add Z.sub]. lia.
      * rewrite Hrun. exists (set_phase (phase g) g'), k. split; [reflexivity | exact Hk].
    + unfold actor. replace (0 <? n) with false by (symmetry; apply Z.ltb_ge; lia).
      exists (sync g), 0%nat. split; reflexivity.
  - destruct (Z.ltb_spec 0 n) as [Hpos | Hle].
    + rewrite (evaluate_loop_unfold n ds co g Hpos).
      destruct (polling_loop_returns
                  (fun k s => params s = params g /\
                     (evaluate_only (params g) = None -> phase s = TEST) /\
                     act_phases (events s) = repeat TEST k ++ act_phases (events g))
                  ds co (evaluate_body ds co)
                  (environment_steps (current_step_counter g) + n))
        with (fuel := Z.to_nat n) (i := 0%nat)
             (g := reset_internal_state (set_phase TEST (sync g)))
        as (g' & k & Hrun & (_ & _ & Hk) & _).
      * intros i s s' Hb. pose proof (evaluate_body_continue ds co i s s' Hb) as Hc.
        tauto.
      * apply evaluate_body_stop.
      * intros i s s' (Hpar & Hph & Hs) Hb.
        destruct (evaluate_body_continue ds co i s s' Hb) as (_ & _ & _ & _ & _ & Hp').
        destruct (evaluate_body_events ds co i s s' Hb) as (during & Hev & Hmode & Hplain).
        assert (Hduring : during = TEST /\
                          (evaluate_only (params g) = None -> phase s' = TEST)).
        { rewrite <- Hpar in Hph |- *.
          destruct (evaluate_only (params s)) eqn:He.
          - destruct Hmode as [-> _]; [discriminate|]. split; [reflexivity|discriminate].
          - destruct (Hplain eq_refl) as [-> ->]. auto. }
        destruct Hduring as [-> Hph'].
        split; [congruence|]. split; [exact Hph'|].
        rewrite Hev, refresh_policy_events. cbn [act_phases repeat app]. f_equal.
        destruct (attempt_load_policy ds i); cbn; exact Hs.
      * split; [reflexivity|]. split; reflexivity.
      * cbn -[Z.add Z.sub]. lia.
      * rewrite Hrun. exists (set_phase (phase g) g'), k. split; [reflexivity | exact Hk].
    + unfold evaluate_loop. replace (0 <? n) with false by (symmetry; apply Z.ltb_ge; lia).
      exists (sync g), 0%nat. split; reflexivity.
Qed.

(** X13.  An actor whose agent's tag does not exceed its
    [latest_policy_id] when it starts never tags a call of [act] with an
    older policy than an earlier call: the tags of its calls of [act], read
    in the order of the calls, never go down, and they lie between the tag it
    started with and the [latest_policy_id] it ends with. *)
Theorem actor_tags_never_go_back :
  forall (n : Z) (ds : RedisDataStore) (co : Collaborators) (g : MASTGraphManager),
    Agent.policy_id (agent g) <= latest_policy_id g ->
    exists g' tags,
      actor n ds co g = Returned g' /\
      act_tags (events g') = tags ++ act_tags (events g) /\
      StronglySorted Z.ge tags /\
      Forall (fun t => Agent.policy_id (agent g) <= t <= latest_policy_id g') tags.
Proof.
  intros n ds co g Hstart.
  destruct (actor_returns
              (fun _ s =>
                 Agent.policy_id (agent g) <= Agent.policy_id (agent s)
                   <= latest_policy_id s /\
                 exists tags,
                   act_tags (events s) = tags ++ act_tags (events g) /\
                   StronglySorted Z.ge tags /\
                   Forall (fun t => Agent.policy_id (agent g) <= t
                                    <= Agent.policy_id (agent s)) tags)
              n ds co g) as (g' & _ & Hrun & (Hb & tags & Ht & Hs & Hall) & _).
  - intros i s s' (Hb & tags & Ht & Hs & Hall) Hbody.
    assert (Hgrow : forall s1,
              Agent.policy_id (agent s) <= Agent.policy_id (agent s1)
                <= latest_policy_id s1 ->
              act_tags (events s1) = act_tags (events s) ->
              let s2 := act (EnvironmentSteps 1) (steps_taken co i) s1 in
              Agent.policy_id (agent g) <= Agent.policy_id (agent s2)
                <= latest_policy_id s2 /\
              exists tags',
                act_tags (events s2) = tags' ++ act_tags (events g) /\
                StronglySorted Z.ge tags' /\
                Forall (fun t => Agent.policy_id (agent g) <= t
                                 <= Agent.policy_id (agent s2)) tags').
    { intros s1 Hs1 Hev s2. subst s2.
      cbn [act events emit set_current_step_counter agent latest_policy_id act_tags].
      split; [lia|]. exists (Agent.policy_id (agent s1) :: tags).
      split; [rewrite Hev, Ht; reflexivity|]. split.
      - constructor; [exact Hs|].
        eapply Forall_impl; [|exact Hall]. cbv beta. intros t Htb. lia.
      - constructor; [lia|].
        eapply Forall_impl; [|exact Hall]. cbv beta. intros t Htb. lia. }
    destruct (actor_body_cases ds co i s s' Hbody) as [-> | ->].
    + apply Hgrow; [lia | reflexivity].
    + apply Hgrow.
      * destruct (refresh_policy_tag ds i s) as [[Hp Hl] | [Hp Hl]]; lia.
      * rewrite refresh_policy_events.
        destruct (attempt_load_policy ds i); reflexivity.
  - intros i s p H. exact H.
  - cbn. split; [lia|]. exists []. repeat split; constructor.
  - cbn. split; [lia|]. exists []. repeat split; constructor.
  - exists g', tags. split; [exact Hrun|]. split; [exact Ht|]. split; [exact Hs|].
    eapply Forall_impl; [|exact Hall]. cbv beta. intros t Htb. lia.
Qed.

Lemma actor_tags_never_go_back_witness :
  let ds := mkStore (fun _ => false)
                    (fun i => if (i =? 0)%nat then Some (mkPolicy 7 0) else None) in
  let co := mkCollaborators (fun _ => 1%positive) (fun _ => false) false in
  let g := init (mkParameters (EnvironmentSteps 2) (EnvironmentSteps 3) None None) in
  exists g' tags,
    actor 3 ds co g = Returned g' /\
    act_tags (events g') = tags ++ act_tags (events g) /\
    StronglySorted Z.ge tags.
Proof.
  intros ds co g.
  destruct (actor_tags_never_go_back 3 ds co g) as (g' & tags & Hrun & Ht & Hs & _).
  - vm_compute. discriminate.
  - exists g', tags. repeat split; assumption.
Defined.

(** * The blue agent *)

Lemma blue_lookup_update_same :
  forall (h : BlueAgent.Heap) (addr : nat) v,
    BlueAgent.lookup addr h <> None ->
    BlueAgent.lookup addr (BlueAgent.update addr v h) = Some v.
Proof.
  unfold BlueAgent.lookup.
  induction h as [|x h IH]; intros [|addr] v Hin; simpl in *; try congruence.
  apply IH. exact Hin.
Qed.

Lemma blue_lookup_update_other :
  forall (h : BlueAgent.Heap) (addr other : nat) v,
    other <> addr ->
    BlueAgent.lookup other (BlueAgent.update addr v h) = BlueAgent.lookup other h.
Proof.
  unfold BlueAgent.lookup.
  induction h as [|x h IH]; intros [|addr] [|other] v Hne; simpl; try reflexivity;
    try congruence.
  apply IH. congruence.
Qed.

Lemma blue_length_update :
  forall (h : BlueAgent.Heap) (addr : nat) v,
    length (BlueAgent.update addr v h) = length h.
Proof.
  induction h as [|x h IH]; intros [|addr] v; simpl; try reflexivity.
  now rewrite IH.
Qed.

Lemma blue_lookup_allocated (h : BlueAgent.Heap) (addr : nat) :
  BlueAgent.lookup addr h <> None <-> (addr < length h)%nat.
Proof. unfold BlueAgent.lookup. apply nth_error_Some. Qed.

(** Appending to the list at [addr] extends that list and no other. *)
Lemma blue_extend_spec :
  forall (cmds : list BlueAgent.Instruction) (h : BlueAgent.Heap) (addr : nat) l,
    BlueAgent.lookup addr h = Some l ->
    BlueAgent.lookup addr (BlueAgent.extend addr cmds h) = Some (l ++ cmds) /\
    length (BlueAgent.extend addr cmds h) = length h /\
    (forall other, other <> addr ->
       BlueAgent.lookup other (BlueAgent.extend addr cmds h) = BlueAgent.lookup other h).
Proof.
  unfold BlueAgent.extend.
  induction cmds as [|c cmds IH]; intros h addr l Hl; cbn [fold_left].
  - rewrite app_nil_r. auto.
  - assert (Hstep : BlueAgent.lookup addr (BlueAgent.append addr c h) = Some (l ++ [c])).
    { unfold BlueAgent.append. rewrite Hl. apply blue_lookup_update_same. congruence. }
    destruct (IH _ addr _ Hstep) as (H1 & H2 & H3).
    split; [rewrite H1, <- app_assoc; reflexivity|]. split.
    + rewrite H2. unfold BlueAgent.append. rewrite Hl. apply blue_length_update.
    + intros other Hne. rewrite (H3 other Hne). unfold BlueAgent.append. rewrite Hl.
      apply blue_lookup_update_other. exact Hne.
Qed.

(** X14.  Constructing a blue agent from a configuration without the key
    ["side"] raises [KeyError] before anything is allocated.  With the key,
    the agent gets the configured side, three empty dictionaries and a list
    of instructions that is a new, empty object: no list that existed before
    is touched or shared. *)
Theorem blue_agent_construction :
  forall (name : String.string) (config : list (String.string * Z))
         (h : BlueAgent.Heap),
    match BlueAgent.get BlueAgent.side_key config with
    | None => BlueAgent.__init__ name config h = BlueAgent.KeyError BlueAgent.side_key
    | Some s =>
        exists a h',
          BlueAgent.__init__ name config h = BlueAgent.Ok (h', a) /\
          BlueAgent.side a = s /\ BlueAgent.name a = name /\
          BlueAgent.forms_own a = [] /\ BlueAgent.units_oppo a = [] /\
          BlueAgent.threats a = [] /\
          BlueAgent.lookup (BlueAgent.instructions a) h = None /\
          BlueAgent.lookup (BlueAgent.instructions a) h' = Some [] /\
          (forall addr, BlueAgent.lookup addr h <> None ->
                        BlueAgent.lookup addr h' = BlueAgent.lookup addr h)
    end.
Proof.
  intros name config h. unfold BlueAgent.__init__.
  fold BlueAgent.side_key.
  destruct (BlueAgent.get BlueAgent.side_key config) as [s|]; [|reflexivity].
  eexists. eexists. split; [reflexivity|]. cbn.
  repeat split.
  - unfold BlueAgent.lookup. apply nth_error_None. lia.
  - unfold BlueAgent.lookup. rewrite nth_error_app2 by lia.
    now rewrite Nat.sub_diag.
  - intros addr Hin. apply blue_lookup_allocated in Hin.
    unfold BlueAgent.lookup. now rewrite nth_error_app1.
Qed.

(** X15.  [step] returns the agent's own list of instructions, emptied,
    whatever the simulation time and the observation.  Commands that the
    caller appended to the list returned by one call are therefore gone
    after the next call, which returns the same list; no other list is
    changed, and neither is the agent. *)
Theorem blue_step_returns_own_list :
  forall (a : BlueAgent.t) (h : BlueAgent.Heap) (t1 o1 t2 o2 : Z)
         (cmds : list BlueAgent.Instruction),
    BlueAgent.lookup (BlueAgent.instructions a) h <> None ->
    let first := BlueAgent.step t1 o1 a h in
    let filled := BlueAgent.extend (snd first) cmds (fst first) in
    let second := BlueAgent.step t2 o2 a filled in
    snd first = BlueAgent.instructions a /\
    BlueAgent.lookup (snd first) (fst first) = Some [] /\
    BlueAgent.lookup (snd first) filled = Some cmds /\
    snd second = snd first /\
    BlueAgent.lookup (snd second) (fst second) = Some [] /\
    (forall other, other <> BlueAgent.instructions a ->
       BlueAgent.lookup other (fst second) = BlueAgent.lookup other h).
Proof.
  intros a h t1 o1 t2 o2 cmds Hin first filled second.
  subst first filled second. unfold BlueAgent.step. cbn [fst snd].
  assert (H1 : BlueAgent.lookup (BlueAgent.instructions a)
                 (BlueAgent.update (BlueAgent.instructions a) [] h) = Some [])
    by (apply blue_lookup_update_same; exact Hin).
  destruct (blue_extend_spec cmds _ _ _ H1) as (E1 & E2 & E3).
  split; [reflexivity|]. split; [exact H1|]. split; [exact E1|].
  split; [reflexivity|]. split.
  - apply blue_lookup_update_same. rewrite E1. discriminate.
  - intros other Hne. rewrite blue_lookup_update_other by exact Hne.
    rewrite (E3 other Hne). apply blue_lookup_update_other. exact Hne.
Qed.

Lemma blue_step_returns_own_list_witness :
  let a := BlueAgent.mk String.EmptyString 1 [] [] [] 1 in
  let h := [[5]; [7; 8]] in
  let first := BlueAgent.step 0 0 a h in
  let filled := BlueAgent.extend (snd first) [3; 4] (fst first) in
  BlueAgent.lookup (snd first) filled = Some [3; 4] /\
  BlueAgent.lookup (snd (BlueAgent.step 1 0 a filled))
                   (fst (BlueAgent.step 1 0 a filled)) = Some [].
Proof.
  intros a h first filled.
  destruct (blue_step_returns_own_list a h 0 0 1 0 [3; 4]) as (_ & _ & H3 & _ & H5 & _).
  - discriminate.
  - split; [exact H3 | exact H5].
Defined.

(** X16.  [reset] gives the agent new containers: its dictionaries are
    empty and its list of instructions is a new, empty object.  A list that
    an earlier call of [step] returned is no longer the agent's: it keeps
    what its holder put in it through the reset and through later calls of
    [step], which return the new list. *)
Theorem blue_reset_detaches_list :
  forall (a : BlueAgent.t) (h : BlueAgent.Heap) (t1 o1 t2 o2 : Z)
         (cmds : list BlueAgent.Instruction),
    BlueAgent.lookup (BlueAgent.instructions a) h <> None ->
    let first := BlueAgent.step t1 o1 a h in
    let filled := BlueAgent.extend (snd first) cmds (fst first) in
    let fresh := BlueAgent.reset a filled in
    let second := BlueAgent.step t2 o2 (snd fresh) (fst fresh) in
    snd second <> snd first /\
    BlueAgent.lookup (snd first) (fst second) = Some cmds /\
    BlueAgent.lookup (snd second) (fst second) = Some [] /\
    BlueAgent.forms_own (snd fresh) = [] /\
    BlueAgent.units_oppo (snd fresh) = [] /\
    BlueAgent.threats (snd fresh) = [] /\
    BlueAgent.side (snd fresh) = BlueAgent.side a.
Proof.
  intros a h t1 o1 t2 o2 cmds Hin first filled fresh second.
  subst first filled fresh second.
  unfold BlueAgent.step, BlueAgent.reset, BlueAgent._init, BlueAgent.alloc.
  cbn [fst snd BlueAgent.instructions BlueAgent.forms_own BlueAgent.units_oppo
       BlueAgent.threats BlueAgent.side].
  assert (H1 : BlueAgent.lookup (BlueAgent.instructions a)
                 (BlueAgent.update (BlueAgent.instructions a) [] h) = Some [])
    by (apply blue_lookup_update_same; exact Hin).
  destruct (blue_extend_spec cmds _ _ _ H1) as (E1 & E2 & _).
  rewrite blue_length_update in E2.
  apply blue_lookup_allocated in Hin.
  set (filled := BlueAgent.extend (BlueAgent.instructions a) cmds
                   (BlueAgent.update (BlueAgent.instructions a) [] h)) in *.
  assert (Hnew : BlueAgent.lookup (length filled) (filled ++ [[]]) = Some []).
  { unfold BlueAgent.lookup. rewrite nth_error_app2 by lia. now rewrite Nat.sub_diag. }
  split; [lia|]. split; [|split; [|repeat split]].
  - rewrite blue_lookup_update_other by lia.
    unfold BlueAgent.lookup in *. rewrite nth_error_app1 by lia. exact E1.
  - apply blue_lookup_update_same. rewrite Hnew. discriminate.
Qed.

Lemma blue_reset_detaches_list_witness :
  let a := BlueAgent.mk String.EmptyString 1 [(1, 2)] [] [] 1 in
  let h := [[5]; [7; 8]] in
  let first := BlueAgent.step 0 0 a h in
  let filled := BlueAgent.extend (snd first) [3; 4] (fst first) in
  let fresh := BlueAgent.reset a filled in
  BlueAgent.lookup (snd first) (fst (BlueAgent.step 1 0 (snd fresh) (fst fresh)))
  = Some [3; 4].
Proof.
  intros a h first filled fresh.
  destruct (blue_reset_detaches_list a h 0 0 1 0 [3; 4]) as (_ & H2 & _).
  - discriminate.
  - exact H2.
Defined.
